(** * Ellipse regions: containment, bounding box, masks and frame transforms

    A shallow embedding of [regions/shapes/ellipse.py]: the pixel-frame
    ellipse [EllipsePixelRegion] with its constructor, [area], [contains],
    [to_sky], [bounding_box], [to_mask], [as_artist],
    [_update_from_mpl_selector], [as_mpl_selector] and [rotate], and the
    sky-frame ellipse [EllipseSkyRegion] with [to_pixel].

    Numbers.  Python floats and NumPy float64 values are modelled by
    [pyfloat]: the real numbers extended with the IEEE 754 special values
    (the two infinities and NaN).  Rounding is not modelled, and zero carries
    no sign: a non-zero number divided by zero is the infinity with the sign
    of the dividend, as IEEE 754 gives for +0.0.  Every operation follows the
    IEEE 754 rules for the special values (NumPy arithmetic does not raise on
    a division by zero, it returns an infinity or NaN). *)

From Stdlib Require Import Reals Lra Lia ZArith List Bool ClassicalEpsilon.
From stdpp Require Import base option gmap strings.

Local Open Scope R_scope.

(** ** Floats *)

Inductive pyfloat : Type :=
  | Fin (r : R)
  | PInf
  | NInf
  | NaN.

Declare Scope float_scope.
Delimit Scope float_scope with fl.
Bind Scope float_scope with pyfloat.

(** The sign of a real number, as a three-way comparison with zero. *)
Definition Rsign (r : R) : comparison :=
  match total_order_T r 0 with
  | inleft (left _) => Lt
  | inleft (right _) => Eq
  | inright _ => Gt
  end.

(** The infinity of a given sign; a zero sign (0 * inf, 0 / 0) is NaN. *)
Definition inf_of (c : comparison) : pyfloat :=
  match c with
  | Lt => NInf
  | Eq => NaN
  | Gt => PInf
  end.

Definition fopp (a : pyfloat) : pyfloat :=
  match a with
  | Fin r => Fin (- r)
  | PInf => NInf
  | NInf => PInf
  | NaN => NaN
  end.

Definition fadd (a b : pyfloat) : pyfloat :=
  match a, b with
  | Fin r, Fin s => Fin (r + s)
  | NaN, _ | _, NaN => NaN
  | PInf, NInf | NInf, PInf => NaN
  | PInf, _ | _, PInf => PInf
  | NInf, _ | _, NInf => NInf
  end.

Definition fsub (a b : pyfloat) : pyfloat := fadd a (fopp b).

Definition fmul (a b : pyfloat) : pyfloat :=
  match a, b with
  | Fin r, Fin s => Fin (r * s)
  | NaN, _ | _, NaN => NaN
  | Fin r, PInf | PInf, Fin r => inf_of (Rsign r)
  | Fin r, NInf | NInf, Fin r => inf_of (CompOpp (Rsign r))
  | PInf, PInf | NInf, NInf => PInf
  | PInf, NInf | NInf, PInf => NInf
  end.

Definition fdiv (a b : pyfloat) : pyfloat :=
  match a, b with
  | Fin r, Fin s => if Req_dec_T s 0 then inf_of (Rsign r) else Fin (r / s)
  | NaN, _ | _, NaN => NaN
  | Fin _, (PInf | NInf) => Fin 0
  | PInf, Fin s => match Rsign s with Lt => NInf | _ => PInf end
  | NInf, Fin s => match Rsign s with Lt => PInf | _ => NInf end
  | (PInf | NInf), (PInf | NInf) => NaN
  end.

(** [a <= b]; every comparison with NaN is false. *)
Definition fle (a b : pyfloat) : bool :=
  match a, b with
  | Fin r, Fin s => if Rle_dec r s then true else false
  | NaN, _ | _, NaN => false
  | NInf, _ | _, PInf => true
  | _, _ => false
  end.

(** [a > b]. *)
Definition fgt (a b : pyfloat) : bool :=
  match a, b with
  | Fin r, Fin s => if Rlt_dec s r then true else false
  | NaN, _ | _, NaN => false
  | PInf, PInf | NInf, NInf => false
  | PInf, _ | _, NInf => true
  | _, _ => false
  end.

(** [a != b]; NaN differs from everything, itself included. *)
Definition fne (a b : pyfloat) : bool :=
  match a, b with
  | Fin r, Fin s => if Req_dec_T r s then false else true
  | PInf, PInf | NInf, NInf => false
  | _, _ => true
  end.

Notation "a + b" := (fadd a b) : float_scope.
Notation "a - b" := (fsub a b) : float_scope.
Notation "a * b" := (fmul a b) : float_scope.
Notation "a / b" := (fdiv a b) : float_scope.
Notation "- a" := (fopp a) : float_scope.
Notation "a <=? b" := (fle a b) : float_scope.
Notation "a >? b" := (fgt a b) : float_scope.
Notation "a !=? b" := (fne a b) (at level 70) : float_scope.

(** [a ** 2]. *)
Definition fsqr (a : pyfloat) : pyfloat := (a * a)%fl.

(** [float(n)] for a Python integer. *)
Definition float_of_int (n : Z) : pyfloat := Fin (IZR n).

(** NumPy's trigonometric functions on a value in radians.  The cosine and
    sine of an infinity are NaN.  The tangent is the quotient of sine by
    cosine in float arithmetic: at a pole of the tangent it is an infinity,
    where a binary float, which never hits the pole, gives a huge finite
    value. *)
Definition fcos (a : pyfloat) : pyfloat :=
  match a with Fin r => Fin (cos r) | _ => NaN end.

Definition fsin (a : pyfloat) : pyfloat :=
  match a with Fin r => Fin (sin r) | _ => NaN end.

Definition ftan (a : pyfloat) : pyfloat := (fsin a / fcos a)%fl.

Definition farctan (a : pyfloat) : pyfloat :=
  match a with
  | Fin r => Fin (atan r)
  | PInf => Fin (PI / 2)
  | NInf => Fin (- (PI / 2))
  | NaN => NaN
  end.

(** ** Angular quantities ([astropy.units.Quantity], [astropy.coordinates.Angle])

    A value with its unit.  The ellipse code only meets degrees and radians. *)

Inductive angle_unit : Type := deg | rad.

Record Quantity : Type := mkQuantity { value : pyfloat; unit : angle_unit }.

(** [q.to(u)]. *)
Definition to (u : angle_unit) (q : Quantity) : Quantity :=
  match unit q, u with
  | deg, rad => mkQuantity (value q * Fin (PI / 180))%fl rad
  | rad, deg => mkQuantity (value q * Fin (180 / PI))%fl deg
  | _, _ => q
  end.

(** [q1 + q2] and [q1 - q2]: the right operand is converted to the unit of
    the left one, which is the unit of the result. *)
Definition qadd (q1 q2 : Quantity) : Quantity :=
  mkQuantity (value q1 + value (to (unit q1) q2))%fl (unit q1).

Definition qsub (q1 q2 : Quantity) : Quantity :=
  mkQuantity (value q1 - value (to (unit q1) q2))%fl (unit q1).

(** [np.cos(q)], [np.sin(q)], [np.tan(q)]: the argument is taken in radians,
    the result is a plain number. *)
Definition np_cos (q : Quantity) : pyfloat := fcos (value (to rad q)).
Definition np_sin (q : Quantity) : pyfloat := fsin (value (to rad q)).
Definition np_tan (q : Quantity) : pyfloat := ftan (value (to rad q)).

(** [np.arctan(v)] of a plain number: an angle in radians. *)
Definition np_arctan (v : pyfloat) : Quantity := mkQuantity (farctan v) rad.

(** [np.pi * u.rad]. *)
Definition np_pi_rad : Quantity := mkQuantity (Fin PI) rad.

(** ** Python values held by the meta and visual dictionaries *)

Inductive pyval : Type :=
  | PyNone
  | PyBool (b : bool)
  | PyInt (n : Z)
  | PyFloat (f : pyfloat)
  | PyStr (s : string).

(** Truth value of a Python object ([if v:]). *)
Definition truthy (v : pyval) : bool :=
  match v with
  | PyNone => false
  | PyBool b => b
  | PyInt n => negb (n =? 0)%Z
  | PyFloat f => (f !=? Fin 0)%fl
  | PyStr EmptyString => false
  | PyStr _ => true
  end.

(** [d.get(key, default)]. *)
Definition dict_get (d : gmap string pyval) (key : string) (default : pyval)
  : pyval :=
  match d !! key with
  | Some v => v
  | None => default
  end.

(** ** The data model *)

Record PixCoord : Type := mkPixCoord { x : pyfloat; y : pyfloat }.

Record EllipsePixelRegion : Type := mkEllipsePixelRegion {
  center : PixCoord;
  width : pyfloat;
  height : pyfloat;
  angle : Quantity;
  meta : gmap string pyval;
  visual : gmap string pyval
}.

(** ** [EllipsePixelRegion.contains] *)

(** The local [in_ell] of [contains]: the ellipse inequality at a point.
    [PixCoord._validate] accepts a [PixCoord]; the point is a scalar one by
    its type. *)
Definition in_ell (self : EllipsePixelRegion) (pixcoord : PixCoord) : bool :=
  let cos_angle := np_cos (angle self) in
  let sin_angle := np_sin (angle self) in
  let dx := (x pixcoord - x (center self))%fl in
  let dy := (y pixcoord - y (center self))%fl in
  (fsqr (Fin 2 * (cos_angle * dx + sin_angle * dy) / width self) +
   fsqr (Fin 2 * (sin_angle * dx - cos_angle * dy) / height self)
   <=? Fin 1)%fl.

Definition contains (self : EllipsePixelRegion) (pixcoord : PixCoord) : bool :=
  let in_ell := in_ell self pixcoord in
  if truthy (dict_get (meta self) "include" (PyBool true))
  then in_ell
  else negb in_ell.

(** ** [EllipsePixelRegion.area] *)

Definition area (self : EllipsePixelRegion) : pyfloat :=
  (Fin PI / Fin 4 * width self * height self)%fl.

(** The region with one more entry in its [meta]. *)
Definition with_meta (self : EllipsePixelRegion) (key : string) (v : pyval)
  : EllipsePixelRegion :=
  mkEllipsePixelRegion (center self) (width self) (height self) (angle self)
                       (<[key := v]> (meta self)) (visual self).

(** An angle given by a real number and a unit, in radians. *)
Definition radians (u : angle_unit) (a : R) : R :=
  match u with
  | deg => a * (PI / 180)
  | rad => a
  end.

(** ** Exceptions and results *)

Inductive exception : Type :=
  | PyException (msg : string)
  | NotImplementedError (msg : string)
  | ValueError (msg : string)
  | TypeError (msg : string)
  | AttributeError (msg : string).

Inductive result (A : Type) : Type :=
  | Ok (a : A)
  | Raise (e : exception).

Arguments Ok {A} a.
Arguments Raise {A} e.

Definition result_bind {A B : Type} (r : result A) (k : A -> result B)
  : result B :=
  match r with
  | Ok a => k a
  | Raise e => Raise e
  end.

(** ** [EllipsePixelRegion.bounding_box] *)

(** Modelled from the spec: [BoundingBox] is defined in [regions/core].  The
    spec: "integer pixel extrema [{ixmin, ixmax, iymin, iymax}] defining a
    half-open cell range; derived quantity
    [shape = (iymax-iymin, ixmax-ixmin)]". *)
Record BoundingBox : Type := mkBoundingBox {
  ixmin : Z;
  ixmax : Z;
  iymin : Z;
  iymax : Z
}.

(** Modelled from the spec: [BoundingBox.shape], as quoted above. *)
Definition shape (bbox : BoundingBox) : Z * Z :=
  ((iymax bbox - iymin bbox)%Z, (ixmax bbox - ixmin bbox)%Z).

(** The continuous extent [(xmin, xmax, ymin, ymax)] that [bounding_box]
    hands to [BoundingBox.from_float]. *)
Definition bounding_box_extents (self : EllipsePixelRegion)
  : pyfloat * pyfloat * pyfloat * pyfloat :=
  let cos_angle := np_cos (angle self) in
  let sin_angle := np_sin (angle self) in
  let tan_angle := np_tan (angle self) in

  let t1 := np_arctan (- height self * tan_angle / width self)%fl in
  let t2 := qadd t1 np_pi_rad in

  let dx1 := (Fin (1/2) * width self * cos_angle * np_cos t1
              - Fin (1/2) * height self * sin_angle * np_sin t1)%fl in
  let dx2 := (Fin (1/2) * width self * cos_angle * np_cos t2
              - Fin (1/2) * height self * sin_angle * np_sin t2)%fl in

  let '(dx1, dx2) := if (dx1 >? dx2)%fl then (dx2, dx1) else (dx1, dx2) in

  let t1 := np_arctan (height self / tan_angle / width self)%fl in
  let t2 := qadd t1 np_pi_rad in

  let dy1 := (Fin (1/2) * height self * cos_angle * np_sin t1
              + Fin (1/2) * width self * sin_angle * np_cos t1)%fl in
  let dy2 := (Fin (1/2) * height self * cos_angle * np_sin t2
              + Fin (1/2) * width self * sin_angle * np_cos t2)%fl in

  let '(dy1, dy2) := if (dy1 >? dy2)%fl then (dy2, dy1) else (dy1, dy2) in

  let xmin := (x (center self) + dx1)%fl in
  let xmax := (x (center self) + dx2)%fl in
  let ymin := (y (center self) + dy1)%fl in
  let ymax := (y (center self) + dy2)%fl in
  (xmin, xmax, ymin, ymax).

(** The same computation with every division it evaluates written to a log,
    as the pair (dividend, divisor), in evaluation order. *)
Definition logged (A : Type) : Type := A * list (pyfloat * pyfloat).

Definition log_ret {A : Type} (a : A) : logged A := (a, []).

Definition log_bind {A B : Type} (m : logged A) (k : A -> logged B)
  : logged B :=
  let '(a, l1) := m in
  let '(b, l2) := k a in
  (b, l1 ++ l2).

Definition log_div (a b : pyfloat) : logged pyfloat := ((a / b)%fl, [(a, b)]).

Definition bounding_box_extents_logged (self : EllipsePixelRegion)
  : logged (pyfloat * pyfloat * pyfloat * pyfloat) :=
  let cos_angle := np_cos (angle self) in
  let sin_angle := np_sin (angle self) in
  let tan_angle := np_tan (angle self) in

  log_bind (log_div (- height self * tan_angle)%fl (width self)) (fun q1 =>
  let t1 := np_arctan q1 in
  let t2 := qadd t1 np_pi_rad in

  let dx1 := (Fin (1/2) * width self * cos_angle * np_cos t1
              - Fin (1/2) * height self * sin_angle * np_sin t1)%fl in
  let dx2 := (Fin (1/2) * width self * cos_angle * np_cos t2
              - Fin (1/2) * height self * sin_angle * np_sin t2)%fl in

  let '(dx1, dx2) := if (dx1 >? dx2)%fl then (dx2, dx1) else (dx1, dx2) in

  log_bind (log_div (height self) tan_angle) (fun q2 =>
  log_bind (log_div q2 (width self)) (fun q3 =>
  let t1 := np_arctan q3 in
  let t2 := qadd t1 np_pi_rad in

  let dy1 := (Fin (1/2) * height self * cos_angle * np_sin t1
              + Fin (1/2) * width self * sin_angle * np_cos t1)%fl in
  let dy2 := (Fin (1/2) * height self * cos_angle * np_sin t2
              + Fin (1/2) * width self * sin_angle * np_cos t2)%fl in

  let '(dy1, dy2) := if (dy1 >? dy2)%fl then (dy2, dy1) else (dy1, dy2) in

  let xmin := (x (center self) + dx1)%fl in
  let xmax := (x (center self) + dx2)%fl in
  let ymin := (y (center self) + dy1)%fl in
  let ymax := (y (center self) + dy2)%fl in
  log_ret (xmin, xmax, ymin, ymax)))).

(** ** The sky-frame ellipse and the collaborators that [ellipse.py] imports

    [SkyCoord] and the projection [WCS] are astropy's, [Axes] is
    matplotlib's, and [Callback] is the type of the functions a caller
    registers with a selector.  The functions below are defined in other
    modules ([regions/core], [regions/_geometry],
    [regions/_utils/wcs_helpers], [astropy.wcs.utils]) and are parameters of
    the development. *)

Record EllipseSkyRegion (SkyCoord : Type) : Type := mkEllipseSkyRegion {
  sky_center : SkyCoord;
  sky_width : Quantity;
  sky_height : Quantity;
  sky_angle : Quantity;
  sky_meta : gmap string pyval;
  sky_visual : gmap string pyval
}.

Arguments mkEllipseSkyRegion {SkyCoord} _ _ _ _ _ _.
Arguments sky_center {SkyCoord} _.
Arguments sky_width {SkyCoord} _.
Arguments sky_height {SkyCoord} _.
Arguments sky_angle {SkyCoord} _.
Arguments sky_meta {SkyCoord} _.
Arguments sky_visual {SkyCoord} _.

(** Modelled from the spec: [RegionMask] is defined in [regions/core].  The
    spec's CoverageMask: "a 2D array of floats [...], one entry per pixel
    cell inside a BoundingBox, paired with that BoundingBox". *)
Record RegionMask : Type := mkRegionMask {
  data : list (list pyfloat);
  bbox : BoundingBox
}.

(** References to objects. *)
Abbreviation loc := positive.

Section Methods.

Context {SkyCoord WCS Axes Callback : Type}.

(** [BoundingBox.from_float(xmin, xmax, ymin, ymax)]. *)
Variable from_float :
  pyfloat -> pyfloat -> pyfloat -> pyfloat -> result BoundingBox.

(** [PixelRegion._validate_mode(mode, subpixels)]. *)
Variable _validate_mode : string -> Z -> result Datatypes.unit.

(** [elliptical_overlap_grid(xmin, xmax, ymin, ymax, nx, ny, rx, ry, theta,
    use_exact, subpixels)]. *)
Variable elliptical_overlap_grid :
  pyfloat -> pyfloat -> pyfloat -> pyfloat -> Z -> Z ->
  pyfloat -> pyfloat -> pyfloat -> Z -> Z -> list (list pyfloat).

(** [pixel_to_skycoord(x, y, wcs)]. *)
Variable pixel_to_skycoord : pyfloat -> pyfloat -> WCS -> SkyCoord.

(** [skycoord_to_pixel_scale_angle(center, wcs)]: the pixel position, the
    scale and the angle of north at that position. *)
Variable skycoord_to_pixel_scale_angle :
  SkyCoord -> WCS -> PixCoord * pyfloat * Quantity.

Definition bounding_box (self : EllipsePixelRegion) : result BoundingBox :=
  let '(xmin, xmax, ymin, ymax) := bounding_box_extents self in
  from_float xmin xmax ymin ymax.

(** *** [EllipsePixelRegion.to_mask] *)

Definition to_mask (self : EllipsePixelRegion) (mode : string)
    (subpixels : Z) : result RegionMask :=
  result_bind (_validate_mode mode subpixels) (fun _ =>

  let '(mode, subpixels) :=
    if String.eqb mode "center" then ("subpixels"%string, 1%Z)
    else (mode, subpixels) in

  (* Find bounding box and mask size *)
  result_bind (bounding_box self) (fun bbox =>
  let '(ny, nx) := shape bbox in

  (* Find position of pixel edges and recenter so that ellipse is at origin *)
  let xmin := (float_of_int (ixmin bbox) - Fin (1/2) - x (center self))%fl in
  let xmax := (float_of_int (ixmax bbox) - Fin (1/2) - x (center self))%fl in
  let ymin := (float_of_int (iymin bbox) - Fin (1/2) - y (center self))%fl in
  let ymax := (float_of_int (iymax bbox) - Fin (1/2) - y (center self))%fl in

  let use_exact := if String.eqb mode "subpixels" then 0%Z else 1%Z in

  let fraction :=
    elliptical_overlap_grid
      xmin xmax ymin ymax nx ny
      (Fin (1/2) * width self)%fl (Fin (1/2) * height self)%fl
      (value (to rad (angle self)))
      use_exact subpixels in

  Ok (mkRegionMask fraction bbox))).

(** *** [EllipsePixelRegion.to_sky] and [EllipseSkyRegion.to_pixel]

    The constructors store [meta or RegionMeta()]: an empty [meta] is
    replaced by a new empty dictionary, so the stored contents are those of
    the argument.  A non-empty dictionary is shared by the two regions;
    dictionaries are values here, since nothing in [ellipse.py] writes to
    one. *)

Definition to_sky (self : EllipsePixelRegion) (wcs : WCS)
  : EllipseSkyRegion SkyCoord :=
  let center_ := pixel_to_skycoord (x (center self)) (y (center self)) wcs in
  let '(_, scale, north_angle) := skycoord_to_pixel_scale_angle center_ wcs in
  let height_ := mkQuantity (height self / scale)%fl deg in
  let width_ := mkQuantity (width self / scale)%fl deg in
  mkEllipseSkyRegion center_ width_ height_
    (qsub (angle self) (qsub north_angle (mkQuantity (Fin 90) deg)))
    (meta self) (visual self).

Definition to_pixel (self : EllipseSkyRegion SkyCoord) (wcs : WCS)
  : EllipsePixelRegion :=
  let '(center_, scale, north_angle) :=
    skycoord_to_pixel_scale_angle (sky_center self) wcs in
  (* float(center.x), float(center.y): the position as a scalar point *)
  let center_ := mkPixCoord (x center_) (y center_) in
  let height_ := (value (to deg (sky_height self)) * scale)%fl in
  let width_ := (value (to deg (sky_width self)) * scale)%fl in
  mkEllipsePixelRegion center_ width_ height_
    (qadd (sky_angle self) (qsub north_angle (mkQuantity (Fin 90) deg)))
    (sky_meta self) (sky_visual self).

(** *** Region objects, the heap and the selector

    A region is a Python object: methods receive a reference to it, and
    [as_mpl_selector] stores attributes on it.  Objects live in a heap
    indexed by references.  A selector is stored by value in the region
    that owns it. *)

(** The function handed to the selector: the bound method
    [self._update_from_mpl_selector], or the local function that does
    nothing. *)
Inductive sync_callback : Type :=
  | update_from_mpl_selector (self : loc)
  | pass_callback.

(** [matplotlib.widgets.EllipseSelector], as far as this code touches it. *)
Record EllipseSelector : Type := mkEllipseSelector {
  sel_ax : Axes;
  onselect : sync_callback;
  interactive : bool;
  rectprops : gmap string pyval;
  extents : pyfloat * pyfloat * pyfloat * pyfloat;
  active : bool
}.

(** [EllipseSelector(ax, onselect, interactive=..., rectprops=...)]: a new
    selector, active, with empty extents. *)
Definition EllipseSelector_init (ax : Axes) (f : sync_callback)
    (interactive : bool) (rectprops : gmap string pyval) : EllipseSelector :=
  mkEllipseSelector ax f interactive rectprops
                    (Fin 0, Fin 0, Fin 0, Fin 0) true.

Definition set_extents (s : EllipseSelector)
    (e : pyfloat * pyfloat * pyfloat * pyfloat) : EllipseSelector :=
  mkEllipseSelector (sel_ax s) (onselect s) (interactive s) (rectprops s)
                    e (active s).

Definition set_active (s : EllipseSelector) (a : bool) : EllipseSelector :=
  mkEllipseSelector (sel_ax s) (onselect s) (interactive s) (rectprops s)
                    (extents s) a.

(** An [EllipsePixelRegion] instance: its parameters and the two
    attributes [as_mpl_selector] adds.  [None] is an attribute that is not
    set; [_mpl_selector_callback] may be set to Python's [None]. *)
Record pixel_object : Type := mkPixelObject {
  region : EllipsePixelRegion;
  _mpl_selector : option EllipseSelector;
  _mpl_selector_callback : option (option Callback)
}.

Inductive pyobject : Type :=
  | PixelObject (o : pixel_object)
  | SkyObject (s : EllipseSkyRegion SkyCoord).

(** Computations on the heap, a finite map from references to objects,
    that may raise.  The heap is returned in both cases: an exception
    leaves the writes made before it. *)
Definition M (A : Type) : Type :=
  gmap loc pyobject -> result A * gmap loc pyobject.

Definition ret {A : Type} (a : A) : M A := fun h => (Ok a, h).

Definition raise {A : Type} (e : exception) : M A := fun h => (Raise e, h).

Definition bind {A B : Type} (m : M A) (k : A -> M B) : M B :=
  fun h =>
    match m h with
    | (Ok a, h') => k a h'
    | (Raise e, h') => (Raise e, h')
    end.

Notation "'let*' x ':=' m 'in' k" := (bind m (fun x => k))
  (at level 10, x name, m at level 200, k at level 200).
Notation "'do' m 'in' k" := (bind m (fun _ => k))
  (at level 10, m at level 200, k at level 200).

(** A new object at a reference that is not in use. *)
Definition alloc (v : pyobject) : M loc :=
  fun h => let l := fresh (dom h) in (Ok l, <[l := v]> h).

Definition get_pixel (self : loc) : M pixel_object :=
  fun h =>
    match h !! self with
    | Some (PixelObject o) => (Ok o, h)
    | _ => (Raise (TypeError "not an EllipsePixelRegion"), h)
    end.

Definition get_sky (self : loc) : M (EllipseSkyRegion SkyCoord) :=
  fun h =>
    match h !! self with
    | Some (SkyObject s) => (Ok s, h)
    | _ => (Raise (TypeError "not an EllipseSkyRegion"), h)
    end.

(** Updates the pixel object at [self]. *)
Definition update_pixel (self : loc) (f : pixel_object -> pixel_object)
  : M Datatypes.unit :=
  let* o := get_pixel self in
  fun h => (Ok tt, <[self := PixelObject (f o)]> h).

(** [hasattr(self, '_mpl_selector')]. *)
Definition hasattr_mpl_selector (o : pixel_object) : bool :=
  match _mpl_selector o with Some _ => true | None => false end.

(** A registered callback is handed the region.  It is taken to return
    normally; what it does to the region's parameters is a parameter. *)
Variable run_callback : Callback -> EllipsePixelRegion -> EllipsePixelRegion.

(** *** [EllipsePixelRegion._update_from_mpl_selector] *)

Definition _update_from_mpl_selector (self : loc) : M Datatypes.unit :=
  let* o := get_pixel self in
  match _mpl_selector o with
  | None => raise (AttributeError "_mpl_selector")
  | Some sel =>
      let '(xmin, xmax, ymin, ymax) := extents sel in
      do update_pixel self (fun o =>
        mkPixelObject
          (mkEllipsePixelRegion
             (mkPixCoord (Fin (1/2) * (xmin + xmax))%fl
                         (Fin (1/2) * (ymin + ymax))%fl)
             (xmax - xmin)%fl
             (ymax - ymin)%fl
             (mkQuantity (Fin 0) deg)
             (meta (region o)) (visual (region o)))
          (_mpl_selector o) (_mpl_selector_callback o)) in
      let* o := get_pixel self in
      match _mpl_selector_callback o with
      | None => raise (AttributeError "_mpl_selector_callback")
      | Some None => ret tt
      | Some (Some c) =>
          update_pixel self (fun o =>
            mkPixelObject (run_callback c (region o))
                          (_mpl_selector o) (_mpl_selector_callback o))
      end
  end.

(** *** [EllipsePixelRegion.as_mpl_selector] *)

Definition as_mpl_selector (self : loc) (ax : Axes) (active sync : bool)
    (callback : option Callback) : M EllipseSelector :=
  let* o := get_pixel self in
  if hasattr_mpl_selector o then
    raise (PyException "Cannot attach more than one selector to a region.")
  else if (value (angle (region o)) !=? Fin 0)%fl then
    raise (NotImplementedError
             "Cannot create matplotlib selector for rotated ellipse.")
  else
    let sync_callback :=
      if sync then update_from_mpl_selector self else pass_callback in
    let r := region o in
    (* self._mpl_selector = EllipseSelector(...) *)
    do update_pixel self (fun o =>
      mkPixelObject (region o)
        (Some (EllipseSelector_init ax sync_callback true
                 {[ "edgecolor"%string :=
                      dict_get (visual r) "color" (PyStr "black");
                    "facecolor"%string := PyStr "none";
                    "linewidth"%string :=
                      dict_get (visual r) "linewidth" (PyInt 1);
                    "linestyle"%string :=
                      dict_get (visual r) "linestyle" (PyStr "solid") ]}))
        (_mpl_selector_callback o)) in
    (* self._mpl_selector.extents = (...) *)
    do update_pixel self (fun o =>
      mkPixelObject (region o)
        (option_map (fun s => set_extents s
           ((x (center r) - width r / Fin 2)%fl,
            (x (center r) + width r / Fin 2)%fl,
            (y (center r) - height r / Fin 2)%fl,
            (y (center r) + height r / Fin 2)%fl)) (_mpl_selector o))
        (_mpl_selector_callback o)) in
    (* self._mpl_selector.set_active(active) *)
    do update_pixel self (fun o =>
      mkPixelObject (region o)
        (option_map (fun s => set_active s active) (_mpl_selector o))
        (_mpl_selector_callback o)) in
    (* self._mpl_selector_callback = callback *)
    do update_pixel self (fun o =>
      mkPixelObject (region o) (_mpl_selector o) (Some callback)) in
    (* if sync and self._mpl_selector_callback is not None: ...(self) *)
    do (match sync, callback with
     | true, Some c =>
         update_pixel self (fun o =>
           mkPixelObject (run_callback c (region o))
                         (_mpl_selector o) (_mpl_selector_callback o))
     | _, _ => ret tt
     end) in
    (* return self._mpl_selector *)
    let* o := get_pixel self in
    match _mpl_selector o with
    | Some s => ret s
    | None => raise (AttributeError "_mpl_selector")
    end.

(** *** The conversions as method calls on objects *)

Definition to_sky_call (self : loc) (wcs : WCS) : M loc :=
  let* o := get_pixel self in
  alloc (SkyObject (to_sky (region o) wcs)).

Definition to_pixel_call (self : loc) (wcs : WCS) : M loc :=
  let* s := get_sky self in
  alloc (PixelObject (mkPixelObject (to_pixel s wcs) None None)).

End Methods.

(** ** [EllipsePixelRegion.__init__]

    An argument that the caller leaves out is [None] here.  The class
    attributes [ScalarPix], [ScalarLength] and [QuantityLength] check that
    the values are scalars, which they are by their types. *)

(** [d or RegionMeta()], [d or RegionVisual()]: a missing or empty
    dictionary is replaced by a new empty one. *)
Definition or_new (d : option (gmap string pyval)) : gmap string pyval :=
  match d with
  | Some m => if decide (m = ∅) then ∅ else m
  | None => ∅
  end.

Definition EllipsePixelRegion_init (center_ : PixCoord)
    (width_ height_ : pyfloat) (angle_ : option Quantity)
    (meta_ visual_ : option (gmap string pyval)) : EllipsePixelRegion :=
  mkEllipsePixelRegion center_ width_ height_
    (default (mkQuantity (Fin 0) deg) angle_)
    (or_new meta_) (or_new visual_).

(** ** [EllipsePixelRegion.rotate] *)

(** Modelled from the spec: [PixCoord.rotate] is defined in [regions/core].
    The spec: a point "supports rotation about an arbitrary pivot by a signed
    angle (counter-clockwise positive)"; the docstring of [rotate]:
    "Rotates counter-clockwise for positive angle", with [center] the
    "rotation center point". *)
Definition PixCoord_rotate (self center_ : PixCoord) (angle_ : Quantity)
  : PixCoord :=
  let dx := (x self - x center_)%fl in
  let dy := (y self - y center_)%fl in
  let c := np_cos angle_ in
  let s := np_sin angle_ in
  mkPixCoord (x center_ + (c * dx - s * dy))%fl
             (y center_ + (s * dx + c * dy))%fl.

(** [self.copy(center=center, angle=angle)] is the region with these two
    parameters replaced ([Region.copy] is defined in [regions/core]; the spec:
    "returning a new, independent parameter set"). *)
Definition rotate (self : EllipsePixelRegion) (center_ : PixCoord)
    (angle_ : Quantity) : EllipsePixelRegion :=
  let center_ := PixCoord_rotate (center self) center_ angle_ in
  let angle_ := qadd (angle self) angle_ in
  mkEllipsePixelRegion center_ (width self) (height self) angle_
                       (meta self) (visual self).

(** ** [EllipsePixelRegion.as_artist] *)

(** [matplotlib.patches.Ellipse], as far as this code touches it: the four
    arguments passed by name and the remaining keyword arguments. *)
Record Ellipse : Type := mkEllipse {
  xy : pyfloat * pyfloat;
  patch_width : pyfloat;
  patch_height : pyfloat;
  patch_angle : pyfloat;
  patch_props : gmap string pyval
}.

(** The keywords that [as_artist] passes by name. *)
Definition geometry_keywords : list string :=
  ["xy"; "width"; "height"; "angle"]%string.

Definition has_geometry_keyword (d : gmap string pyval) : bool :=
  existsb (fun k => bool_decide (is_Some (d !! k))) geometry_keywords.

Section Artist.

(** [PixelRegion.mpl_properties_default(shape)], defined in
    [regions/core]. *)
Variable mpl_properties_default :
  EllipsePixelRegion -> string -> gmap string pyval.

(** [mpl_params.update(kwargs)]: the entries of [kwargs] replace those of
    the defaults.  The call [Ellipse(xy=.., width=.., height=.., angle=..,
    **mpl_params)] is a Python call with a keyword given twice when
    [mpl_params] holds one of the four names: it raises [TypeError] (got
    multiple values for keyword argument).  The constructor itself is taken
    to return normally. *)
Definition as_artist (self : EllipsePixelRegion) (origin : pyfloat * pyfloat)
    (kwargs : gmap string pyval) : result Ellipse :=
  let xy := ((x (center self) - fst origin)%fl,
             (y (center self) - snd origin)%fl) in
  let width_ := width self in
  let height_ := height self in
  let angle_ := value (to deg (angle self)) in
  let mpl_params := mpl_properties_default self "patch" in
  let mpl_params := kwargs ∪ mpl_params in
  if has_geometry_keyword mpl_params
  then Raise (TypeError "got multiple values for keyword argument")
  else Ok (mkEllipse xy width_ height_ angle_ mpl_params).

End Artist.

(** ** The selector calls the function it was given *)

Section SelectorEvents.

Context {SkyCoord WCS Axes Callback : Type}.

Variable run_callback : Callback -> EllipsePixelRegion -> EllipsePixelRegion.

(** A call of the [onselect] function of a selector: the bound method
    [_update_from_mpl_selector] of the region, or the function that does
    nothing. *)
Definition call_sync_callback (f : sync_callback)
  : @M SkyCoord Axes Callback Datatypes.unit :=
  match f with
  | update_from_mpl_selector self => _update_from_mpl_selector run_callback self
  | pass_callback => ret tt
  end.

End SelectorEvents.

(** ** Collaborators modelled from the spec *)

(** Modelled from the spec: [BoundingBox.from_float] is defined in
    [regions/core].  The spec: "Convert to an integer box via floor/ceil
    rounding that guarantees full coverage of the continuous extent", "floor
    for min, ceil for max".  An extent that is not a finite number has no
    integer conversion: the call raises. *)
Definition spec_from_float (xmin xmax ymin ymax : pyfloat)
  : result BoundingBox :=
  match xmin, xmax, ymin, ymax with
  | Fin a, Fin b, Fin c, Fin d =>
      Ok (mkBoundingBox (Zfloor a) (Zceil b) (Zfloor c) (Zceil d))
  | _, _, _, _ => Raise (ValueError "cannot convert float to integer")
  end.

(** Modelled from the spec: [PixelRegion._validate_mode] is defined in
    [regions/core].  The spec: "Precondition: subpixels >= 1 integer; mode is
    one of the three named values, else fail". *)
Definition spec_validate_mode (mode : string) (subpixels : Z)
  : result Datatypes.unit :=
  if negb (String.eqb mode "center" || String.eqb mode "subpixels"
           || String.eqb mode "exact")
  then Raise (ValueError "invalid mask mode")
  else if (subpixels <? 1)%Z
  then Raise (ValueError "invalid subpixels value")
  else Ok tt.

(** *** The overlap grid

    [elliptical_overlap_grid] is defined in [regions/_geometry] and is
    modelled from the spec below.  The ellipse is centered at the origin,
    with semi-axes [rx] and [ry] and rotation [theta] in radians. *)

(** The integral of [f] from [a] to [b], and 0 when [f] has none. *)
Definition integral (f : R -> R) (a b : R) : R :=
  match excluded_middle_informative (inhabited (Riemann_integrable f a b)) with
  | left H =>
      RiemannInt
        (proj1_sig
           (constructive_indefinite_description
              (fun _ : Riemann_integrable f a b => True)
              (match H with inhabits pr => ex_intro _ pr I end)))
  | right _ => 0
  end.

(** The ellipse test of the containment test, for the ellipse at the
    origin, on real numbers. *)
Definition in_ellipse (rx ry theta x y : R) : Prop :=
  (2 * (cos theta * x + sin theta * y) / (2 * rx)) ^ 2 +
  (2 * (sin theta * x - cos theta * y) / (2 * ry)) ^ 2 <= 1.

(** The vertical line at abscissa [x] meets the ellipse in the chord from
    [chord_lo x] to [chord_hi x]: the test is a quadratic inequality in [y],
    [a y^2 + 2 b x y + ... <= 1], with discriminant [chord_disc x].  Where
    the discriminant is negative the line misses the ellipse, and the two
    ends are equal. *)
Definition chord_a (rx ry theta : R) : R :=
  (sin theta / rx) ^ 2 + (cos theta / ry) ^ 2.

Definition chord_b (rx ry theta : R) : R :=
  cos theta * sin theta * (1 / rx ^ 2 - 1 / ry ^ 2).

Definition chord_disc (rx ry theta x : R) : R :=
  chord_a rx ry theta - (x / (rx * ry)) ^ 2.

Definition chord_lo (rx ry theta x : R) : R :=
  (- chord_b rx ry theta * x - sqrt (Rmax 0 (chord_disc rx ry theta x)))
  / chord_a rx ry theta.

Definition chord_hi (rx ry theta x : R) : R :=
  (- chord_b rx ry theta * x + sqrt (Rmax 0 (chord_disc rx ry theta x)))
  / chord_a rx ry theta.

(** The length of the part of the chord at [x] between [y0] and [y1]. *)
Definition covered_length (rx ry theta y0 y1 x : R) : R :=
  Rmax 0 (Rmin y1 (chord_hi rx ry theta x) - Rmax y0 (chord_lo rx ry theta x)).

(** The area of the part of the ellipse in the cell [x0, x1] by [y0, y1].
    An ellipse with a zero semi-axis covers no area. *)
Definition covered_area (rx ry theta x0 x1 y0 y1 : R) : R :=
  if Req_dec_T (rx * ry) 0 then 0
  else integral (covered_length rx ry theta y0 y1) x0 x1.

(** Modelled from the spec: the exact mode of [elliptical_overlap_grid]
    ([regions/_geometry]) on one cell.  The spec: "compute each cell's
    covered area analytically (by clipping the ellipse boundary against each
    cell's edges)", to report "the proportion (0 to 1) of a pixel cell's area
    lying inside the region's geometric boundary".  The spec gives no
    formula; the model is the covered area itself, divided by the area of
    the cell. *)
Definition exact_fraction (x0 y0 dx dy rx ry theta : pyfloat) : pyfloat :=
  match x0, y0, dx, dy, rx, ry, theta with
  | Fin x0, Fin y0, Fin dx, Fin dy, Fin rx, Fin ry, Fin theta =>
      (Fin (covered_area rx ry theta x0 (x0 + dx) y0 (y0 + dy))
       / Fin (dx * dy))%fl
  | _, _, _, _, _, _, _ => NaN
  end.

(** [0, 1, ..., n - 1]. *)
Definition indices (n : Z) : list Z := map Z.of_nat (seq 0 (Z.to_nat n)).

(** The ellipse at the origin as a region, to apply the ellipse test of
    [contains] to it. *)
Definition origin_ellipse (rx ry theta : pyfloat) : EllipsePixelRegion :=
  mkEllipsePixelRegion (mkPixCoord (Fin 0) (Fin 0))
                       (Fin 2 * rx)%fl (Fin 2 * ry)%fl
                       (mkQuantity theta rad) ∅ ∅.

(** The center of sub-cell [k] of [subpixels] along an axis, in a cell that
    starts at [lo] and has size [d]. *)
Definition subpixel_center (lo d : pyfloat) (subpixels k : Z) : pyfloat :=
  (lo + (float_of_int k + Fin (1/2)) * (d / float_of_int subpixels))%fl.

(** Modelled from the spec: the sampling mode of [elliptical_overlap_grid]
    ([regions/_geometry]) on one cell.  The spec: "subdivide each cell into
    an subpixels x subpixels sub-grid, test each sub-cell center for
    containment (ellipse test as in 4.2, but shifted/scaled to local
    pixel-edge coordinates with the ellipse re-centered at the origin), and
    report the fraction of sub-cells inside as that cell's coverage". *)
Definition subpixel_fraction (x0 y0 dx dy rx ry theta : pyfloat)
    (subpixels : Z) : pyfloat :=
  let samples := list_prod (indices subpixels) (indices subpixels) in
  let inside :=
    List.filter
      (fun '(i, j) =>
         in_ell (origin_ellipse rx ry theta)
                (mkPixCoord (subpixel_center x0 dx subpixels i)
                            (subpixel_center y0 dy subpixels j)))
      samples in
  (float_of_int (Z.of_nat (length inside))
   / float_of_int (Z.of_nat (length samples)))%fl.

(** Modelled from the spec: [elliptical_overlap_grid] of
    [regions/_geometry].  The grid has [nx] by [ny] cells over [xmin, xmax]
    by [ymin, ymax]; the result has one row per cell in y ("shape =
    (iymax-iymin, ixmax-ixmin)"), and each entry is the coverage of its
    cell, exact when [use_exact] is 1 and sampled otherwise. *)
Definition spec_elliptical_overlap_grid
    (xmin xmax ymin ymax : pyfloat) (nx ny : Z) (rx ry theta : pyfloat)
    (use_exact subpixels : Z) : list (list pyfloat) :=
  let dx := ((xmax - xmin) / float_of_int nx)%fl in
  let dy := ((ymax - ymin) / float_of_int ny)%fl in
  map (fun j =>
         map (fun i =>
                let x0 := (xmin + float_of_int i * dx)%fl in
                let y0 := (ymin + float_of_int j * dy)%fl in
                if (use_exact =? 1)%Z
                then exact_fraction x0 y0 dx dy rx ry theta
                else subpixel_fraction x0 y0 dx dy rx ry theta subpixels)
             (indices nx))
      (indices ny).

(** A mask value in the closed interval from 0 to 1. *)
Definition in_unit_interval (v : pyfloat) : Prop :=
  (Fin 0 <=? v)%fl = true /\ (v <=? Fin 1)%fl = true.

(** ** Quantities used in the statements *)

(** Half the width and half the height of the smallest axis-parallel
    rectangle around an ellipse with axes [w] and [h] turned by [theta]. *)
Definition half_extent_x (w h theta : R) : R :=
  sqrt ((w * cos theta) ^ 2 + (h * sin theta) ^ 2) / 2.

Definition half_extent_y (w h theta : R) : R :=
  sqrt ((h * cos theta) ^ 2 + (w * sin theta) ^ 2) / 2.

(** The value in unit [u] of an angle of [b] in unit [ub]. *)
Definition convert_angle (ub u : angle_unit) (b : R) : R :=
  match ub, u with
  | deg, rad => b * (PI / 180)
  | rad, deg => b * (180 / PI)
  | _, _ => b
  end.

Definition result_map {A B : Type} (f : A -> B) (r : result A) : result B :=
  match r with
  | Ok a => Ok (f a)
  | Raise e => Raise e
  end.

(** A box and a region moved by [i] pixels in x and [j] pixels in y. *)
Definition shift_box (i j : Z) (b : BoundingBox) : BoundingBox :=
  mkBoundingBox (ixmin b + i) (ixmax b + i) (iymin b + j) (iymax b + j).

Definition shift_region (i j : Z) (self : EllipsePixelRegion)
  : EllipsePixelRegion :=
  mkEllipsePixelRegion
    (mkPixCoord (x (center self) + float_of_int i)%fl
                (y (center self) + float_of_int j)%fl)
    (width self) (height self) (angle self) (meta self) (visual self).

(** ** Concrete inputs *)

(** The ellipse of the spec's scenario: center (15, 10), width 16, height 10,
    angle 0 degrees, empty meta and visual. *)
Definition scenario_ellipse : EllipsePixelRegion :=
  mkEllipsePixelRegion (mkPixCoord (Fin 15) (Fin 10)) (Fin 16) (Fin 10)
                       (mkQuantity (Fin 0) deg) ∅ ∅.

(** The same ellipse with zero width. *)
Definition zero_width_ellipse : EllipsePixelRegion :=
  mkEllipsePixelRegion (mkPixCoord (Fin 15) (Fin 10)) (Fin 0) (Fin 10)
                       (mkQuantity (Fin 0) deg) ∅ ∅.

(** A projection to run the conversions on: the sky position of a pixel is
    the pair of its coordinates, the scale is 2 pixels per degree and north
    is at 90 degrees everywhere. *)
Definition example_pixel_to_skycoord (px py : pyfloat) (wcs : Datatypes.unit)
  : PixCoord := mkPixCoord px py.

Definition example_skycoord_to_pixel_scale_angle (c : PixCoord)
    (wcs : Datatypes.unit) : PixCoord * pyfloat * Quantity :=
  (c, Fin 2, mkQuantity (Fin 90) deg).

(** A heap with the scenario's ellipse at reference 1 and a sky-frame
    ellipse at reference 2. *)
Definition example_sky_ellipse : EllipseSkyRegion PixCoord :=
  mkEllipseSkyRegion (mkPixCoord (Fin 15) (Fin 10))
                     (mkQuantity (Fin 8) deg) (mkQuantity (Fin 5) deg)
                     (mkQuantity (Fin 0) deg) ∅ ∅.

Definition example_heap
  : gmap loc (@pyobject PixCoord Datatypes.unit Datatypes.unit) :=
  <[2%positive := SkyObject example_sky_ellipse]>
    {[ 1%positive := PixelObject (mkPixelObject scenario_ellipse None None) ]}.

(** A callback that leaves the region as it is. *)
Definition example_run_callback (c : Datatypes.unit) (r : EllipsePixelRegion)
  : EllipsePixelRegion := r.

(** A division by zero in a log of divisions. *)
Definition divides_by_zero (log : list (pyfloat * pyfloat)) : Prop :=
  Exists (fun d => snd d = Fin 0) log.

(** The scenario's ellipse turned by 30 degrees. *)
Definition tilted_ellipse : EllipsePixelRegion :=
  mkEllipsePixelRegion (mkPixCoord (Fin 15) (Fin 10)) (Fin 16) (Fin 10)
                       (mkQuantity (Fin 30) deg) ∅ ∅.

(** A selector that reports the extents 7 to 23 by 5 to 15, and a heap where
    it is attached to the region at reference 1, with no callback. *)
Definition example_selector : @EllipseSelector Datatypes.unit :=
  mkEllipseSelector tt (update_from_mpl_selector 1%positive) true ∅
                    (Fin 7, Fin 23, Fin 5, Fin 15) true.

Definition example_selector_heap
  : gmap loc (@pyobject PixCoord Datatypes.unit Datatypes.unit) :=
  {[ 1%positive :=
       PixelObject (mkPixelObject tilted_ellipse (Some example_selector)
                                  (Some None)) ]}.

(** Default patch properties that set nothing. *)
Definition example_mpl_properties_default (self : EllipsePixelRegion)
    (shape_ : string) : gmap string pyval := ∅.

(** ** Proof steps *)

(** Case analysis on the condition of a conditional in the goal. *)
Ltac case_if :=
  match goal with
  | |- context [if ?c then _ else _] => destruct c
  end.

(** The equality of two tuples of finite numbers, one component at a
    time. *)
Ltac fin_tuple :=
  repeat match goal with |- (_, _) = (_, _) => f_equal end;
  apply f_equal; lra.

(** * Properties *)

(** ** Float arithmetic: the special values *)

Example fdiv_one_zero : (Fin 1 / Fin 0)%fl = PInf.
Proof.
  unfold fdiv. destruct (Req_dec_T 0 0); [|contradiction].
  unfold Rsign. destruct (total_order_T 1 0) as [[?|?]|?]; try lra.
  reflexivity.
Qed.

Example fdiv_zero_zero : (Fin 0 / Fin 0)%fl = NaN.
Proof.
  unfold fdiv. destruct (Req_dec_T 0 0); [|contradiction].
  unfold Rsign. destruct (total_order_T 0 0) as [[?|?]|?]; try lra.
  reflexivity.
Qed.

Example fmul_zero_inf : (Fin 0 * PInf)%fl = NaN.
Proof.
  cbn. unfold Rsign. destruct (total_order_T 0 0) as [[?|?]|?]; try lra.
  reflexivity.
Qed.

Example fsub_inf_inf : (PInf - PInf)%fl = NaN.
Proof. reflexivity. Qed.

Example fdiv_one_inf : (Fin 1 / NInf)%fl = Fin 0.
Proof. reflexivity. Qed.

Example fle_nan : (NaN <=? NaN)%fl = false /\ (NaN >? Fin 0)%fl = false.
Proof. split; reflexivity. Qed.

Example fle_infinities :
  (NInf <=? Fin 0)%fl = true /\ (Fin 0 <=? PInf)%fl = true /\
  (PInf <=? Fin 0)%fl = false /\ (PInf <=? PInf)%fl = true.
Proof. repeat split; reflexivity. Qed.

Example fgt_infinities :
  (PInf >? Fin 0)%fl = true /\ (Fin 0 >? NInf)%fl = true /\
  (Fin 0 >? PInf)%fl = false /\ (PInf >? PInf)%fl = false.
Proof. repeat split; reflexivity. Qed.

Example fne_nan : (NaN !=? NaN)%fl = true /\ (PInf !=? PInf)%fl = false.
Proof. split; reflexivity. Qed.

Example farctan_inf : farctan PInf = Fin (PI / 2).
Proof. reflexivity. Qed.

(** ** Float arithmetic on finite values *)

Lemma Rsign_pos (r : R) : 0 < r -> Rsign r = Gt.
Proof.
  intros H. unfold Rsign.
  destruct (total_order_T r 0) as [[?|?]|?]; try lra; reflexivity.
Qed.

Lemma Rsign_neg (r : R) : r < 0 -> Rsign r = Lt.
Proof.
  intros H. unfold Rsign.
  destruct (total_order_T r 0) as [[?|?]|?]; try lra; reflexivity.
Qed.

Lemma Rsign_zero : Rsign 0 = Eq.
Proof.
  unfold Rsign.
  destruct (total_order_T 0 0) as [[?|?]|?]; try lra; reflexivity.
Qed.

Lemma fsub_Fin (a b : R) : (Fin a - Fin b)%fl = Fin (a - b).
Proof. reflexivity. Qed.

Lemma fadd_Fin (a b : R) : (Fin a + Fin b)%fl = Fin (a + b).
Proof. reflexivity. Qed.

Lemma fmul_Fin (a b : R) : (Fin a * Fin b)%fl = Fin (a * b).
Proof. reflexivity. Qed.

Lemma fopp_Fin (a : R) : (- Fin a)%fl = Fin (- a).
Proof. reflexivity. Qed.

Lemma fsqr_Fin (a : R) : fsqr (Fin a) = Fin (a ^ 2).
Proof. unfold fsqr. cbn. f_equal. ring. Qed.

Lemma fdiv_Fin (a b : R) : b <> 0 -> (Fin a / Fin b)%fl = Fin (a / b).
Proof.
  intros H. unfold fdiv. destruct (Req_dec_T b 0); [contradiction|reflexivity].
Qed.

Lemma fdiv_Fin_zero (a : R) : (Fin a / Fin 0)%fl = inf_of (Rsign a).
Proof.
  unfold fdiv. destruct (Req_dec_T 0 0); [reflexivity|contradiction].
Qed.

Lemma fle_Fin (a b : R) : (Fin a <=? Fin b)%fl = true <-> a <= b.
Proof.
  unfold fle. destruct (Rle_dec a b); split; intros; auto; discriminate.
Qed.

(** A quotient by zero is an infinity or NaN: once squared and added to
    anything, it is not below a finite bound. *)
Lemma fsqr_div_zero_not_le (a : R) (t : pyfloat) (b : R) :
  (fsqr (Fin a / Fin 0) + t <=? Fin b)%fl = false /\
  (t + fsqr (Fin a / Fin 0) <=? Fin b)%fl = false.
Proof.
  rewrite fdiv_Fin_zero.
  split; destruct (Rsign a); cbn; destruct t; cbn; auto.
Qed.

Lemma np_cos_Fin (a : R) (u : angle_unit) :
  np_cos (mkQuantity (Fin a) u) = Fin (cos (radians u a)).
Proof. destruct u; reflexivity. Qed.

Lemma np_sin_Fin (a : R) (u : angle_unit) :
  np_sin (mkQuantity (Fin a) u) = Fin (sin (radians u a)).
Proof. destruct u; reflexivity. Qed.

Lemma np_cos_value (q : Quantity) (theta : R) :
  value (to rad q) = Fin theta -> np_cos q = Fin (cos theta).
Proof. unfold np_cos. intros ->. reflexivity. Qed.

Lemma np_sin_value (q : Quantity) (theta : R) :
  value (to rad q) = Fin theta -> np_sin q = Fin (sin theta).
Proof. unfold np_sin. intros ->. reflexivity. Qed.

Lemma np_tan_value (q : Quantity) (theta : R) :
  value (to rad q) = Fin theta ->
  np_tan q = (Fin (sin theta) / Fin (cos theta))%fl.
Proof. unfold np_tan, ftan. intros ->. reflexivity. Qed.

Lemma farctan_zero (r : R) : r = 0 -> Fin (atan r) = Fin 0.
Proof. intros ->. rewrite atan_0. reflexivity. Qed.

Lemma dict_get_empty (key : string) (default : pyval) :
  dict_get ∅ key default = default.
Proof. unfold dict_get. rewrite lookup_empty. reflexivity. Defined.

Lemma include_empty : truthy (dict_get ∅ "include" (PyBool true)) = true.
Proof. rewrite dict_get_empty. reflexivity. Defined.

(** ** Containment *)

(** The ellipse inequality on real numbers.  With a zero width or height the
    quotient is an infinity or NaN and the comparison with 1 is false. *)
Lemma in_ell_Fin
    (cx cy w h a : R) (u : angle_unit) (m v : gmap string pyval) (px py : R) :
  let theta := radians u a in
  let dx := px - cx in
  let dy := py - cy in
  let dx_local := cos theta * dx + sin theta * dy in
  let dy_local := sin theta * dx - cos theta * dy in
  in_ell (mkEllipsePixelRegion (mkPixCoord (Fin cx) (Fin cy)) (Fin w) (Fin h)
                               (mkQuantity (Fin a) u) m v)
         (mkPixCoord (Fin px) (Fin py)) = true
  <-> w <> 0 /\ h <> 0 /\
      (2 * dx_local / w) ^ 2 + (2 * dy_local / h) ^ 2 <= 1.
Proof.
  intros theta dx dy dxl dyl.
  unfold in_ell. cbn [angle center width height x y].
  rewrite np_cos_Fin, np_sin_Fin. fold theta.
  rewrite !fsub_Fin, !fmul_Fin, !fadd_Fin, !fsub_Fin, !fmul_Fin.
  fold dx dy dxl dyl.
  destruct (Req_dec_T w 0) as [->|Hw].
  { rewrite (proj1 (fsqr_div_zero_not_le _ _ _)).
    split; [discriminate | intros [? _]; contradiction]. }
  destruct (Req_dec_T h 0) as [->|Hh].
  { rewrite (proj2 (fsqr_div_zero_not_le _ _ _)).
    split; [discriminate | intros (_ & ? & _); contradiction]. }
  rewrite !fdiv_Fin, !fsqr_Fin, fadd_Fin, fle_Fin by assumption.
  tauto.
Qed.



(** C8.  For every ellipse and every point, [contains] with the [include]
    flag False is the negation of [contains] with [include] True, everything
    else being the same. *)
Theorem contains_include_false_negates
    (self : EllipsePixelRegion) (p : PixCoord) :
  contains (with_meta self "include" (PyBool false)) p
  = negb (contains (with_meta self "include" (PyBool true)) p).
Proof.
  unfold contains, with_meta, dict_get. cbn [meta].
  rewrite !lookup_insert_eq. reflexivity.
Qed.

(** C10.  When [meta] has no ['include'] key, [contains] returns the value of
    the ellipse inequality without negation, which is also what it returns
    once [include] is set to True. *)
Theorem contains_include_default (self : EllipsePixelRegion) (p : PixCoord) :
  meta self !! "include" = None ->
  contains self p = in_ell self p /\
  contains self p = contains (with_meta self "include" (PyBool true)) p.
Proof.
  intros H. unfold contains, with_meta, dict_get. cbn [meta].
  rewrite H, lookup_insert_eq. split; reflexivity.
Qed.

Lemma contains_include_default_witness :
  let p := mkPixCoord (Fin 15) (Fin 16) in
  contains scenario_ellipse p = in_ell scenario_ellipse p /\
  contains scenario_ellipse p
  = contains (with_meta scenario_ellipse "include" (PyBool true)) p.
Proof.
  cbv zeta. apply contains_include_default. apply lookup_empty.
Defined.

(** ** Bounding box *)

Lemma unit_square_root (r : R) : r * r = 1 -> r = 1 \/ r = -1.
Proof.
  intros H. assert (E : (r - 1) * (r + 1) = 0) by lra.
  apply Rmult_integral in E. destruct E; [left|right]; lra.
Qed.

(** Sine and cosine at the even and at the odd multiples of a quarter
    turn. *)
Lemma trig_even_quarter (k : Z) (theta : R) :
  theta = IZR k * (PI / 2) -> Z.even k = true ->
  sin theta = 0 /\ (cos theta = 1 \/ cos theta = -1).
Proof.
  intros -> Hk. apply Z.even_spec in Hk as [m ->].
  assert (Hs : sin (IZR (2 * m) * (PI / 2)) = 0).
  { apply sin_eq_0_1. exists m. rewrite mult_IZR. lra. }
  split; [exact Hs|]. apply unit_square_root.
  pose proof (sin2_cos2 (IZR (2 * m) * (PI / 2))) as H.
  unfold Rsqr in H. rewrite Hs in H. lra.
Qed.

Lemma trig_odd_quarter (k : Z) (theta : R) :
  theta = IZR k * (PI / 2) -> Z.even k = false ->
  cos theta = 0 /\ (sin theta = 1 \/ sin theta = -1).
Proof.
  intros -> Hk. rewrite <- Z.negb_odd in Hk. apply negb_false_iff in Hk.
  apply Z.odd_spec in Hk as [m ->].
  assert (Hc : cos (IZR (2 * m + 1) * (PI / 2)) = 0).
  { apply cos_eq_0_1. exists m. rewrite plus_IZR, mult_IZR. lra. }
  split; [exact Hc|]. apply unit_square_root.
  pose proof (sin2_cos2 (IZR (2 * m + 1) * (PI / 2))) as H.
  unfold Rsqr in H. rewrite Hc in H. lra.
Qed.

(** The tangent is zero at the even multiples and infinite at the odd
    ones. *)
Lemma np_tan_even_quarter (q : Quantity) (k : Z) (theta : R) :
  value (to rad q) = Fin theta -> theta = IZR k * (PI / 2) ->
  Z.even k = true -> np_tan q = Fin 0.
Proof.
  intros Hq Ht Hk. destruct (trig_even_quarter k theta Ht Hk) as [Hs Hc].
  rewrite (np_tan_value q theta Hq), Hs, fdiv_Fin by (destruct Hc; lra).
  f_equal. field. destruct Hc; lra.
Qed.

Lemma np_tan_odd_quarter (q : Quantity) (k : Z) (theta : R) :
  value (to rad q) = Fin theta -> theta = IZR k * (PI / 2) ->
  Z.even k = false -> np_tan q = PInf \/ np_tan q = NInf.
Proof.
  intros Hq Ht Hk. destruct (trig_odd_quarter k theta Ht Hk) as [Hc Hs].
  rewrite (np_tan_value q theta Hq), Hc, fdiv_Fin_zero.
  destruct Hs as [-> | ->];
    [left; rewrite Rsign_pos | right; rewrite Rsign_neg]; auto; lra.
Qed.

(** When both arctangents are finite, the extent is symmetric about the
    center: the two roots [t] and [t + pi] give opposite offsets. *)
Lemma extents_symmetric (cx cy w h : R) (q : Quantity)
    (m v : gmap string pyval) (c s tx ty : R) :
  np_cos q = Fin c -> np_sin q = Fin s ->
  farctan (- Fin h * np_tan q / Fin w)%fl = Fin tx ->
  farctan (Fin h / np_tan q / Fin w)%fl = Fin ty ->
  bounding_box_extents
    (mkEllipsePixelRegion (mkPixCoord (Fin cx) (Fin cy)) (Fin w) (Fin h) q m v)
  = (Fin (cx - Rabs (1/2 * w * c * cos tx - 1/2 * h * s * sin tx)),
     Fin (cx + Rabs (1/2 * w * c * cos tx - 1/2 * h * s * sin tx)),
     Fin (cy - Rabs (1/2 * h * c * sin ty + 1/2 * w * s * cos ty)),
     Fin (cy + Rabs (1/2 * h * c * sin ty + 1/2 * w * s * cos ty))).
Proof.
  intros Hc Hs Hx Hy. unfold bounding_box_extents.
  cbn [angle width height center x y]. unfold np_arctan.
  rewrite Hx, Hy, Hc, Hs.
  unfold np_cos, np_sin, qadd, np_pi_rad. cbn.
  rewrite !neg_cos, !neg_sin.
  do 2 destruct (Rlt_dec _ _); cbn; repeat f_equal;
    unfold Rabs; repeat destruct (Rcase_abs _); lra.
Qed.

Lemma extents_even_quarter (cx cy w h : R) (q : Quantity)
    (m v : gmap string pyval) (k : Z) (theta : R) :
  0 < w -> 0 < h ->
  value (to rad q) = Fin theta -> theta = IZR k * (PI / 2) ->
  Z.even k = true ->
  bounding_box_extents
    (mkEllipsePixelRegion (mkPixCoord (Fin cx) (Fin cy)) (Fin w) (Fin h) q m v)
  = (Fin (cx - w / 2), Fin (cx + w / 2), Fin (cy - h / 2), Fin (cy + h / 2)).
Proof.
  intros Hw Hh Hq Ht Hk.
  destruct (trig_even_quarter k theta Ht Hk) as [Hs Hc].
  pose proof (np_tan_even_quarter q k theta Hq Ht Hk) as Htan.
  rewrite (extents_symmetric cx cy w h q m v
             (cos theta) (sin theta) 0 (PI / 2)).
  - rewrite Hs, cos_0, sin_0, sin_PI2, cos_PI2.
    repeat f_equal; unfold Rabs; destruct (Rcase_abs _);
      destruct Hc as [Hc|Hc]; rewrite Hc in *; lra.
  - apply np_cos_value; assumption.
  - apply np_sin_value; assumption.
  - rewrite Htan, fopp_Fin, fmul_Fin, fdiv_Fin by lra. cbn.
    apply farctan_zero. field. lra.
  - rewrite Htan, fdiv_Fin_zero, (Rsign_pos h Hh). cbn.
    rewrite (Rsign_pos w Hw). reflexivity.
Qed.

Lemma extents_odd_quarter (cx cy w h : R) (q : Quantity)
    (m v : gmap string pyval) (k : Z) (theta : R) :
  0 < w -> 0 < h ->
  value (to rad q) = Fin theta -> theta = IZR k * (PI / 2) ->
  Z.even k = false ->
  bounding_box_extents
    (mkEllipsePixelRegion (mkPixCoord (Fin cx) (Fin cy)) (Fin w) (Fin h) q m v)
  = (Fin (cx - h / 2), Fin (cx + h / 2), Fin (cy - w / 2), Fin (cy + w / 2)).
Proof.
  intros Hw Hh Hq Ht Hk.
  destruct (trig_odd_quarter k theta Ht Hk) as [Hc Hs].
  pose proof (np_tan_odd_quarter q k theta Hq Ht Hk) as Htan.
  assert (Hy : farctan (Fin h / np_tan q / Fin w)%fl = Fin 0).
  { destruct Htan as [-> | ->]; cbn; destruct (Req_dec_T w 0); try lra; cbn;
      apply farctan_zero; field; lra. }
  assert (Hx : exists tx,
             farctan (- Fin h * np_tan q / Fin w)%fl = Fin tx /\
             cos tx = 0 /\ (sin tx = 1 \/ sin tx = -1)).
  { destruct Htan as [-> | ->]; cbn; rewrite (Rsign_neg (- h)) by lra; cbn;
      rewrite (Rsign_pos w Hw); cbn.
    - exists (- (PI / 2)). rewrite cos_neg, sin_neg, cos_PI2, sin_PI2. auto.
    - exists (PI / 2). rewrite cos_PI2, sin_PI2. auto. }
  destruct Hx as (tx & Hx & Hcx & Hsx).
  rewrite (extents_symmetric cx cy w h q m v (cos theta) (sin theta) tx 0
             (np_cos_value _ _ Hq) (np_sin_value _ _ Hq) Hx Hy).
  rewrite Hc, Hcx, cos_0, sin_0.
  repeat f_equal; unfold Rabs; destruct (Rcase_abs _);
    destruct Hs as [Hs|Hs]; destruct Hsx as [Hsx|Hsx];
    rewrite ?Hs, ?Hsx in *; lra.
Qed.

Lemma fmul_nan_r (a : pyfloat) : (a * NaN)%fl = NaN.
Proof. destruct a; reflexivity. Qed.

Lemma fadd_nan_r (a : pyfloat) : (a + NaN)%fl = NaN.
Proof. destruct a; reflexivity. Qed.

(** When [-height * tan(angle) / width] is NaN, so is the lower x bound. *)
Lemma extents_nan_x (self : EllipsePixelRegion) :
  (- height self * np_tan (angle self) / width self)%fl = NaN ->
  fst (fst (fst (bounding_box_extents self))) = NaN.
Proof.
  intros H. unfold bounding_box_extents. rewrite H.
  cbn [np_arctan farctan qadd value unit to np_pi_rad np_cos np_sin
       fcos fsin fadd].
  rewrite !fmul_nan_r. cbn [fsub fopp fadd fgt].
  case_if; cbn [fst]; apply fadd_nan_r.
Qed.

Lemma zero_deg_radians : value (to rad (mkQuantity (Fin 0) deg)) = Fin 0.
Proof. cbn. f_equal. ring. Defined.

Lemma zero_quarter_turns : 0 = IZR 0 * (PI / 2).
Proof. ring. Defined.

(** The scenario's ellipse turned by 90 degrees: width and height change
    places. *)
Example scenario_quarter_turn_extents :
  bounding_box_extents
    (mkEllipsePixelRegion (mkPixCoord (Fin 15) (Fin 10)) (Fin 16) (Fin 10)
                          (mkQuantity (Fin 90) deg) ∅ ∅)
  = (Fin 10, Fin 20, Fin 2, Fin 18).
Proof.
  rewrite (extents_odd_quarter 15 10 16 10 _ ∅ ∅ 1 (90 * (PI / 180)));
    try lra; try reflexivity.
  repeat f_equal; lra.
Qed.

(** The logged computation returns the extent of [bounding_box_extents] and
    evaluates the same three divisions for every ellipse. *)
Lemma bounding_box_extents_logged_run (self : EllipsePixelRegion) :
  bounding_box_extents_logged self
  = (bounding_box_extents self,
     [ ((- height self * np_tan (angle self))%fl, width self);
       (height self, np_tan (angle self));
       ((height self / np_tan (angle self))%fl, width self) ]).
Proof.
  unfold bounding_box_extents_logged, bounding_box_extents,
    log_bind, log_div, log_ret.
  cbv zeta. repeat case_if; reflexivity.
Qed.







(** ** Masks, conversions and selectors *)

Section Properties.

Context {SkyCoord WCS Axes Callback : Type}.

Variable from_float :
  pyfloat -> pyfloat -> pyfloat -> pyfloat -> result BoundingBox.
Variable _validate_mode : string -> Z -> result Datatypes.unit.
Variable elliptical_overlap_grid :
  pyfloat -> pyfloat -> pyfloat -> pyfloat -> Z -> Z ->
  pyfloat -> pyfloat -> pyfloat -> Z -> Z -> list (list pyfloat).
Variable pixel_to_skycoord : pyfloat -> pyfloat -> WCS -> SkyCoord.
Variable skycoord_to_pixel_scale_angle :
  SkyCoord -> WCS -> PixCoord * pyfloat * Quantity.
Variable run_callback : Callback -> EllipsePixelRegion -> EllipsePixelRegion.

(** C2.  For every ellipse, [to_mask] with mode ['center'] returns what
    [to_mask] with mode ['subpixels'] and [subpixels = 1] returns: the same
    bounding box and the same array, or the same exception.  The two calls
    are taken to fare alike in [_validate_mode], whatever that function is:
    both pass, or both raise the same exception. *)
Theorem to_mask_center_is_subpixels_1
    (self : EllipsePixelRegion) (subpixels : Z) :
  _validate_mode "center" subpixels = _validate_mode "subpixels" 1%Z ->
  to_mask from_float _validate_mode elliptical_overlap_grid
          self "center" subpixels
  = to_mask from_float _validate_mode elliptical_overlap_grid
            self "subpixels" 1.
Proof.
  intros H. unfold to_mask. rewrite H.
  destruct (_validate_mode "subpixels" 1%Z); reflexivity.
Qed.


(** *** Objects on the heap *)

Lemma get_pixel_run (h : gmap loc (@pyobject SkyCoord Axes Callback))
    (self : loc) (o : pixel_object) :
  h !! self = Some (PixelObject o) -> get_pixel self h = (Ok o, h).
Proof. unfold get_pixel. intros ->. reflexivity. Qed.

Lemma update_pixel_run (h : gmap loc (@pyobject SkyCoord Axes Callback))
    (self : loc) (o : pixel_object) (f : pixel_object -> pixel_object) :
  h !! self = Some (PixelObject o) ->
  update_pixel self f h = (Ok tt, <[self := PixelObject (f o)]> h).
Proof.
  unfold update_pixel, bind. intros H.
  rewrite (get_pixel_run _ _ _ H). reflexivity.
Qed.

Lemma get_pixel_insert (h : gmap loc (@pyobject SkyCoord Axes Callback))
    (self : loc) (o : pixel_object) :
  get_pixel self (<[self := PixelObject o]> h)
  = (Ok o, <[self := PixelObject o]> h).
Proof. apply get_pixel_run. apply lookup_insert_eq. Qed.

Lemma update_pixel_insert (h : gmap loc (@pyobject SkyCoord Axes Callback))
    (self : loc) (o : pixel_object) (f : pixel_object -> pixel_object) :
  update_pixel self f (<[self := PixelObject o]> h)
  = (Ok tt, <[self := PixelObject (f o)]> h).
Proof.
  unfold update_pixel, bind. rewrite get_pixel_insert.
  rewrite insert_insert_eq. reflexivity.
Qed.

Lemma fresh_unused (h : gmap loc (@pyobject SkyCoord Axes Callback)) :
  h !! fresh (dom h) = None.
Proof. apply (proj1 (not_elem_of_dom h _)). apply is_fresh. Qed.

(** A selector that reports new extents replaces the four parameters of
    the region: the center is the midpoint, the width and height are the
    sizes of the extents, and the angle is zero. *)
Lemma update_from_mpl_selector_run
    (h : gmap loc (@pyobject SkyCoord Axes Callback)) (self : loc)
    (o : pixel_object) (sel : EllipseSelector)
    (xmin xmax ymin ymax : pyfloat) :
  h !! self = Some (PixelObject o) ->
  _mpl_selector o = Some sel ->
  extents sel = (xmin, xmax, ymin, ymax) ->
  _mpl_selector_callback o = Some None ->
  _update_from_mpl_selector run_callback self h
  = (Ok tt,
     <[self := PixelObject
         (mkPixelObject
            (mkEllipsePixelRegion
               (mkPixCoord (Fin (1/2) * (xmin + xmax))%fl
                           (Fin (1/2) * (ymin + ymax))%fl)
               (xmax - xmin)%fl (ymax - ymin)%fl (mkQuantity (Fin 0) deg)
               (meta (region o)) (visual (region o)))
            (Some sel) (Some None))]> h).
Proof.
  intros H Hsel Hext Hcb. unfold _update_from_mpl_selector, bind.
  rewrite (get_pixel_run _ _ _ H), Hsel, Hext.
  rewrite (update_pixel_run _ _ _ _ H), get_pixel_insert.
  cbn [_mpl_selector_callback]. rewrite Hcb, Hsel. reflexivity.
Qed.

(** C9.  On a region object, [as_mpl_selector] raises in exactly two cases,
    and then leaves the heap, and so the region, as it was: when a selector
    is already attached to the region (an [Exception]), and otherwise when
    the angle is not zero (a [NotImplementedError]).  For a region with no
    selector and a zero angle the call returns the selector, which is then
    attached to the region together with the callback. *)
Theorem as_mpl_selector_errors
    (h : gmap loc (@pyobject SkyCoord Axes Callback)) (self : loc)
    (o : pixel_object) (ax : Axes) (active sync : bool)
    (callback : option Callback) :
  h !! self = Some (PixelObject o) ->
  match as_mpl_selector run_callback self ax active sync callback h with
  | (Raise e, h') =>
      h' = h /\
      ((hasattr_mpl_selector o = true /\
        e = PyException "Cannot attach more than one selector to a region.") \/
       (hasattr_mpl_selector o = false /\
        (value (angle (region o)) !=? Fin 0)%fl = true /\
        e = NotImplementedError
              "Cannot create matplotlib selector for rotated ellipse."))
  | (Ok sel, h') =>
      hasattr_mpl_selector o = false /\
      (value (angle (region o)) !=? Fin 0)%fl = false /\
      exists o', h' !! self = Some (PixelObject o') /\
                 _mpl_selector o' = Some sel /\
                 _mpl_selector_callback o' = Some callback
  end.
Proof.
  intros H. unfold as_mpl_selector. unfold bind at 1.
  rewrite (get_pixel_run _ _ _ H).
  destruct (hasattr_mpl_selector o) eqn:Ha.
  { cbn. auto. }
  destruct (value (angle (region o)) !=? Fin 0)%fl eqn:Hr.
  { cbn. auto 6. }
  unfold bind.
  rewrite (update_pixel_run _ _ _ _ H).
  rewrite !update_pixel_insert.
  cbn [_mpl_selector region _mpl_selector_callback option_map].
  assert (Hend : forall o1 : pixel_object,
    _mpl_selector_callback o1 = Some callback ->
    forall sel, _mpl_selector o1 = Some sel ->
    (let (r3, h'3) := get_pixel self (<[self := PixelObject o1]> h) in
     match r3 with
     | Ok a3 => match _mpl_selector a3 with
                | Some s => ret s
                | None => raise (AttributeError "_mpl_selector")
                end h'3
     | Raise e => (Raise e, h'3)
     end) = (Ok sel, <[self := PixelObject o1]> h)).
  { intros o1 Hcb sel Hsel. rewrite get_pixel_insert, Hsel. reflexivity. }
  destruct sync, callback as [c|]; cbn [ret];
    rewrite ?update_pixel_insert;
    (erewrite Hend; [|reflexivity|reflexivity]);
    (split; [reflexivity|split; [reflexivity|]]);
    eexists; (split; [apply lookup_insert_eq|]);
    split; reflexivity.
Qed.

(** C7.  On the heap, [to_sky] reads a pixel-frame region and returns a new
    sky-frame object, at a reference that was not in use, with
    [width_sky = width / scale], [height_sky = height / scale] (in degrees)
    and [angle_sky = angle - (north_angle - 90 deg)]; [to_pixel] reads a
    sky-frame region and returns a new pixel-frame object with the scalar
    center, [width = width_sky * scale], [height = height_sky * scale] and
    [angle = angle_sky + (north_angle - 90 deg)].  In both cases the heap
    after the call is the heap before it with the new object added: the
    source region is as it was. *)
Theorem conversions_new_instance
    (h : gmap loc (@pyobject SkyCoord Axes Callback)) (p q : loc)
    (o : pixel_object) (s : EllipseSkyRegion SkyCoord) (wcs : WCS) :
  h !! p = Some (PixelObject o) ->
  h !! q = Some (SkyObject s) ->
  (let e := region o in
   let sky_c := pixel_to_skycoord (x (center e)) (y (center e)) wcs in
   let '(_, scale, north_angle) := skycoord_to_pixel_scale_angle sky_c wcs in
   exists l s',
     to_sky_call pixel_to_skycoord skycoord_to_pixel_scale_angle p wcs h
     = (Ok l, <[l := SkyObject s']> h) /\
     h !! l = None /\
     (<[l := SkyObject s']> h) !! p = Some (PixelObject o) /\
     sky_center s' = sky_c /\
     sky_width s' = mkQuantity (width e / scale)%fl deg /\
     sky_height s' = mkQuantity (height e / scale)%fl deg /\
     sky_angle s'
     = qsub (angle e) (qsub north_angle (mkQuantity (Fin 90) deg)))
  /\
  (let '(c, scale, north_angle) :=
     skycoord_to_pixel_scale_angle (sky_center s) wcs in
   exists l e',
     to_pixel_call skycoord_to_pixel_scale_angle q wcs h
     = (Ok l, <[l := PixelObject (mkPixelObject e' None None)]> h) /\
     h !! l = None /\
     (<[l := PixelObject (mkPixelObject e' None None)]> h) !! q
     = Some (SkyObject s) /\
     center e' = mkPixCoord (x c) (y c) /\
     width e' = (value (to deg (sky_width s)) * scale)%fl /\
     height e' = (value (to deg (sky_height s)) * scale)%fl /\
     angle e'
     = qadd (sky_angle s) (qsub north_angle (mkQuantity (Fin 90) deg))).
Proof.
  intros Hp Hq. pose proof (fresh_unused h) as Hf. split.
  - cbv zeta. unfold to_sky_call, to_sky, bind, get_pixel, alloc. rewrite Hp.
    destruct (skycoord_to_pixel_scale_angle _ wcs) as [[c scale] north].
    eexists _, _. split; [reflexivity|].
    split; [exact Hf|]. split; [|cbn; auto].
    rewrite lookup_insert_ne; [exact Hp|]. intros E. rewrite E in Hf.
    congruence.
  - unfold to_pixel_call, to_pixel, bind, get_sky, alloc. rewrite Hq.
    destruct (skycoord_to_pixel_scale_angle _ wcs) as [[c scale] north].
    eexists _, _. split; [reflexivity|].
    split; [exact Hf|]. split; [|cbn; auto].
    rewrite lookup_insert_ne; [exact Hq|]. intros E. rewrite E in Hf.
    congruence.
Qed.

End Properties.

(** ** The overlap grid *)

(** *** The chord of the ellipse on a vertical line *)

Lemma chord_a_pos (rx ry theta : R) :
  rx <> 0 -> ry <> 0 -> 0 < chord_a rx ry theta.
Proof.
  intros Hx Hy. unfold chord_a.
  pose proof (sin2_cos2 theta) as H. unfold Rsqr in H.
  assert (H1 : 0 <= (sin theta / rx) ^ 2) by apply pow2_ge_0.
  assert (H2 : 0 <= (cos theta / ry) ^ 2) by apply pow2_ge_0.
  destruct (Req_dec (sin theta) 0) as [Hs|Hs].
  - assert (Hc : cos theta <> 0) by (intros Hc; rewrite Hs, Hc in H; lra).
    assert (0 < (cos theta / ry) ^ 2); [|lra].
    rewrite <- Rsqr_pow2. apply Rsqr_pos_lt. unfold Rdiv.
    apply Rmult_integral_contrapositive_currified; [assumption|].
    apply Rinv_neq_0_compat. assumption.
  - assert (0 < (sin theta / rx) ^ 2); [|lra].
    rewrite <- Rsqr_pow2. apply Rsqr_pos_lt. unfold Rdiv.
    apply Rmult_integral_contrapositive_currified; [assumption|].
    apply Rinv_neq_0_compat. assumption.
Qed.

(** The ellipse test as a quadratic inequality in [y]. *)
Lemma in_ellipse_quadratic (rx ry theta x y : R) :
  rx <> 0 -> ry <> 0 ->
  (in_ellipse rx ry theta x y
   <-> (chord_a rx ry theta * y + chord_b rx ry theta * x) ^ 2
       <= chord_disc rx ry theta x).
Proof.
  intros Hx Hy. pose proof (chord_a_pos rx ry theta Hx Hy) as Ha.
  pose proof (sin2_cos2 theta) as H. unfold Rsqr in H.
  set (L := (2 * (cos theta * x + sin theta * y) / (2 * rx)) ^ 2 +
            (2 * (sin theta * x - cos theta * y) / (2 * ry)) ^ 2).
  assert (E : chord_a rx ry theta * (L - 1)
              = (chord_a rx ry theta * y + chord_b rx ry theta * x) ^ 2
                - chord_disc rx ry theta x).
  { assert (E0 : chord_a rx ry theta * (L - 1)
              - ((chord_a rx ry theta * y + chord_b rx ry theta * x) ^ 2
                 - chord_disc rx ry theta x)
              = x ^ 2 * ((sin theta * sin theta + cos theta * cos theta) ^ 2 - 1)
                / (rx * ry) ^ 2).
    { subst L. unfold chord_disc, chord_a, chord_b. field. auto. }
    rewrite H in E0. replace ((1 ^ 2 - 1)) with 0 in E0 by ring.
    unfold Rdiv in E0. rewrite Rmult_0_r, Rmult_0_l in E0. lra. }
  unfold in_ellipse. fold L. split; intros HL.
  - assert (chord_a rx ry theta * (L - 1) <= 0); [|lra].
    replace 0 with (chord_a rx ry theta * 0) by ring.
    apply Rmult_le_compat_l; lra.
  - assert (chord_a rx ry theta * (L - 1) <= 0) by lra.
    assert (L - 1 <= 0); [|lra].
    apply Rmult_le_reg_l with (chord_a rx ry theta); [assumption|]. lra.
Qed.

(** The points of the ellipse on the vertical line at [x] are those between
    the two ends of the chord, when the line meets the ellipse. *)
Lemma in_ellipse_chord (rx ry theta x y : R) :
  rx <> 0 -> ry <> 0 ->
  (in_ellipse rx ry theta x y
   <-> 0 <= chord_disc rx ry theta x /\
       chord_lo rx ry theta x <= y <= chord_hi rx ry theta x).
Proof.
  intros Hx Hy. pose proof (chord_a_pos rx ry theta Hx Hy) as Ha.
  rewrite (in_ellipse_quadratic rx ry theta x y Hx Hy).
  unfold chord_lo, chord_hi.
  set (A := chord_a rx ry theta) in *. set (B := chord_b rx ry theta).
  set (D := chord_disc rx ry theta x).
  assert (Hdiv : forall t, (t / A <= y <-> t <= A * y) /\ (y <= t / A <-> A * y <= t)).
  { intros t. split; split; intros Hle.
    - apply Rmult_le_compat_l with (r := A) in Hle; [|lra].
      replace (A * (t / A)) with t in Hle by (field; lra). assumption.
    - apply Rmult_le_reg_l with A; [assumption|].
      replace (A * (t / A)) with t by (field; lra). assumption.
    - apply Rmult_le_compat_l with (r := A) in Hle; [|lra].
      replace (A * (t / A)) with t in Hle by (field; lra). assumption.
    - apply Rmult_le_reg_l with A; [assumption|].
      replace (A * (t / A)) with t by (field; lra). assumption. }
  split.
  - intros Hq.
    assert (HD : 0 <= D) by (pose proof (pow2_ge_0 (A * y + B * x)); lra).
    split; [assumption|]. rewrite Rmax_right by assumption.
    assert (Habs : Rabs (A * y + B * x) <= sqrt D).
    { rewrite <- sqrt_pow2 with (x := Rabs (A * y + B * x)) by apply Rabs_pos.
      apply sqrt_le_1_alt. rewrite pow2_abs. assumption. }
    assert (- sqrt D <= A * y + B * x <= sqrt D)
      by (unfold Rabs in Habs; destruct (Rcase_abs _); lra).
    split; [apply (proj1 (Hdiv _)) | apply (proj2 (Hdiv _))]; lra.
  - intros (HD & Hlo & Hhi). rewrite Rmax_right in Hlo, Hhi by assumption.
    apply (proj1 (Hdiv _)) in Hlo. apply (proj2 (Hdiv _)) in Hhi.
    assert (Habs : Rabs (A * y + B * x) <= sqrt D) by (apply Rabs_le; lra).
    rewrite <- (sqrt_sqrt D HD), <- pow2_abs.
    simpl pow. rewrite Rmult_1_r.
    pose proof (Rabs_pos (A * y + B * x)). pose proof (sqrt_pos D).
    apply Rmult_le_compat; assumption.
Qed.

(** In the overlap grid's sampling mode the test of a sub-cell center is the
    ellipse test on real numbers. *)
Lemma in_ell_origin_ellipse (rx ry theta px py : R) :
  in_ell (origin_ellipse (Fin rx) (Fin ry) (Fin theta))
         (mkPixCoord (Fin px) (Fin py)) = true
  <-> rx <> 0 /\ ry <> 0 /\ in_ellipse rx ry theta px py.
Proof.
  unfold origin_ellipse. rewrite !fmul_Fin.
  rewrite (in_ell_Fin 0 0 (2 * rx) (2 * ry) theta rad ∅ ∅ px py).
  cbn [radians]. unfold in_ellipse. rewrite !Rminus_0_r.
  assert (forall r, 2 * r <> 0 <-> r <> 0) by (intros; split; lra).
  firstorder.
Qed.

(** *** The covered length is continuous, so the covered area is an
    integral *)

Lemma continuity_pt_pointwise (f g : R -> R) (x : R) :
  (forall t, f t = g t) -> continuity_pt f x -> continuity_pt g x.
Proof.
  intros E Hf eps Heps. destruct (Hf eps Heps) as (alp & Halp & H).
  exists alp. split; [assumption|]. intros t Ht. rewrite <- !E. apply H, Ht.
Qed.

Lemma Rmax_Rabs (a b : R) : Rmax a b = (a + b + Rabs (a - b)) / 2.
Proof.
  unfold Rmax, Rabs. destruct (Rle_dec a b), (Rcase_abs (a - b)); lra.
Qed.

Lemma Rmin_Rabs (a b : R) : Rmin a b = (a + b - Rabs (a - b)) / 2.
Proof.
  unfold Rmin, Rabs. destruct (Rle_dec a b), (Rcase_abs (a - b)); lra.
Qed.

Lemma continuity_pt_Rabs_comp (f : R -> R) (x : R) :
  continuity_pt f x -> continuity_pt (fun t => Rabs (f t)) x.
Proof.
  intros Hf. apply (continuity_pt_comp f Rabs); [assumption|].
  apply Rcontinuity_abs.
Qed.

Lemma continuity_pt_Rmax (f g : R -> R) (x : R) :
  continuity_pt f x -> continuity_pt g x ->
  continuity_pt (fun t => Rmax (f t) (g t)) x.
Proof.
  intros Hf Hg.
  apply (continuity_pt_pointwise
           (fun t => (f t + g t + Rabs (f t - g t)) * / 2)).
  { intros t. rewrite Rmax_Rabs. reflexivity. }
  apply (continuity_pt_mult (fun t => f t + g t + Rabs (f t - g t)) (fun _ => / 2)).
  - apply (continuity_pt_plus (fun t => f t + g t) (fun t => Rabs (f t - g t))).
    + apply (continuity_pt_plus f g); assumption.
    + apply continuity_pt_Rabs_comp. apply (continuity_pt_minus f g); assumption.
  - apply continuity_pt_const. intros ? ?. reflexivity.
Qed.

Lemma continuity_pt_Rmin (f g : R -> R) (x : R) :
  continuity_pt f x -> continuity_pt g x ->
  continuity_pt (fun t => Rmin (f t) (g t)) x.
Proof.
  intros Hf Hg.
  apply (continuity_pt_pointwise
           (fun t => (f t + g t - Rabs (f t - g t)) * / 2)).
  { intros t. rewrite Rmin_Rabs. reflexivity. }
  apply (continuity_pt_mult (fun t => f t + g t - Rabs (f t - g t)) (fun _ => / 2)).
  - apply (continuity_pt_minus (fun t => f t + g t) (fun t => Rabs (f t - g t))).
    + apply (continuity_pt_plus f g); assumption.
    + apply continuity_pt_Rabs_comp. apply (continuity_pt_minus f g); assumption.
  - apply continuity_pt_const. intros ? ?. reflexivity.
Qed.

Lemma continuity_pt_cst (c x : R) : continuity_pt (fun _ => c) x.
Proof. apply continuity_pt_const. intros ? ?. reflexivity. Qed.

Lemma continuity_pt_ident (x : R) : continuity_pt (fun t => t) x.
Proof. apply (derivable_continuous_pt id). apply derivable_pt_id. Qed.

Lemma chord_disc_continuous (rx ry theta x : R) :
  continuity_pt (chord_disc rx ry theta) x.
Proof.
  unfold chord_disc.
  apply (continuity_pt_minus (fun _ => chord_a rx ry theta)
                             (fun t => (t / (rx * ry)) ^ 2)).
  - apply continuity_pt_cst.
  - apply (continuity_pt_pointwise
             (fun t => (t * / (rx * ry)) * (t * / (rx * ry)))).
    { intros t. unfold Rdiv. ring. }
    assert (H : continuity_pt (fun t => t * / (rx * ry)) x).
    { apply (continuity_pt_mult (fun t => t) (fun _ => / (rx * ry))).
      - apply continuity_pt_ident.
      - apply continuity_pt_cst. }
    apply (continuity_pt_mult _ _ x H H).
Qed.

Lemma chord_root_continuous (rx ry theta x : R) :
  continuity_pt (fun t => sqrt (Rmax 0 (chord_disc rx ry theta t))) x.
Proof.
  apply (continuity_pt_comp (fun t => Rmax 0 (chord_disc rx ry theta t)) sqrt).
  - apply (continuity_pt_Rmax (fun _ => 0)).
    + apply continuity_pt_cst.
    + apply chord_disc_continuous.
  - apply continuity_pt_sqrt. apply Rmax_l.
Qed.

Lemma chord_lo_continuous (rx ry theta x : R) :
  continuity_pt (chord_lo rx ry theta) x.
Proof.
  unfold chord_lo.
  apply (continuity_pt_mult
           (fun t => - chord_b rx ry theta * t
                     - sqrt (Rmax 0 (chord_disc rx ry theta t)))
           (fun _ => / chord_a rx ry theta)).
  - apply (continuity_pt_minus (fun t => - chord_b rx ry theta * t)).
    + apply (continuity_pt_mult (fun _ => - chord_b rx ry theta) (fun t => t)).
      * apply continuity_pt_cst.
      * apply continuity_pt_ident.
    + apply chord_root_continuous.
  - apply continuity_pt_cst.
Qed.

Lemma chord_hi_continuous (rx ry theta x : R) :
  continuity_pt (chord_hi rx ry theta) x.
Proof.
  unfold chord_hi.
  apply (continuity_pt_mult
           (fun t => - chord_b rx ry theta * t
                     + sqrt (Rmax 0 (chord_disc rx ry theta t)))
           (fun _ => / chord_a rx ry theta)).
  - apply (continuity_pt_plus (fun t => - chord_b rx ry theta * t)).
    + apply (continuity_pt_mult (fun _ => - chord_b rx ry theta) (fun t => t)).
      * apply continuity_pt_cst.
      * apply continuity_pt_ident.
    + apply chord_root_continuous.
  - apply continuity_pt_cst.
Qed.

Lemma covered_length_continuous (rx ry theta y0 y1 x : R) :
  continuity_pt (covered_length rx ry theta y0 y1) x.
Proof.
  unfold covered_length.
  apply (continuity_pt_Rmax (fun _ => 0)); [apply continuity_pt_cst|].
  apply (continuity_pt_minus
           (fun t => Rmin y1 (chord_hi rx ry theta t))
           (fun t => Rmax y0 (chord_lo rx ry theta t))).
  - apply (continuity_pt_Rmin (fun _ => y1)); [apply continuity_pt_cst|].
    apply chord_hi_continuous.
  - apply (continuity_pt_Rmax (fun _ => y0)); [apply continuity_pt_cst|].
    apply chord_lo_continuous.
Qed.

Lemma covered_length_integrable (rx ry theta y0 y1 a b : R) :
  Riemann_integrable (covered_length rx ry theta y0 y1) a b.
Proof.
  destruct (Rle_dec a b) as [H|H].
  - apply continuity_implies_RiemannInt; [assumption|].
    intros x _. apply covered_length_continuous.
  - apply RiemannInt_P1. apply continuity_implies_RiemannInt; [lra|].
    intros x _. apply covered_length_continuous.
Qed.

Lemma integral_RiemannInt (f : R -> R) (a b : R)
    (pr : Riemann_integrable f a b) :
  integral f a b = RiemannInt pr.
Proof.
  unfold integral.
  destruct (excluded_middle_informative (inhabited (Riemann_integrable f a b)))
    as [H|H].
  - apply RiemannInt_P5.
  - exfalso. apply H. constructor. exact pr.
Qed.

Lemma covered_area_RiemannInt (rx ry theta x0 x1 y0 y1 : R) :
  rx * ry <> 0 ->
  covered_area rx ry theta x0 x1 y0 y1
  = RiemannInt (covered_length_integrable rx ry theta y0 y1 x0 x1).
Proof.
  intros H. unfold covered_area.
  destruct (Req_dec_T (rx * ry) 0); [contradiction|].
  apply integral_RiemannInt.
Qed.

(** The integral of a function that is constant inside the interval. *)
Lemma integral_constant (f : R -> R) (a b c : R) :
  a <= b -> (forall x, a < x < b -> f x = c) ->
  Riemann_integrable f a b ->
  integral f a b = c * (b - a).
Proof.
  intros Hab Hf pr. rewrite (integral_RiemannInt f a b pr).
  rewrite <- (RiemannInt_P15 (RiemannInt_P14 a b c)).
  apply RiemannInt_P18; assumption.
Qed.

(** A cell that lies in the ellipse is covered entirely. *)
Lemma covered_area_inside (rx ry theta x0 x1 y0 y1 : R) :
  rx <> 0 -> ry <> 0 -> x0 <= x1 -> y0 <= y1 ->
  (forall x y, x0 <= x <= x1 -> y0 <= y <= y1 -> in_ellipse rx ry theta x y) ->
  covered_area rx ry theta x0 x1 y0 y1 = (y1 - y0) * (x1 - x0).
Proof.
  intros Hrx Hry Hx Hy Hin. unfold covered_area.
  destruct (Req_dec_T (rx * ry) 0) as [E|_].
  { apply Rmult_integral in E. tauto. }
  apply integral_constant; [assumption| |apply covered_length_integrable].
  intros x Hx'. unfold covered_length.
  assert (H0 : in_ellipse rx ry theta x y0) by (apply Hin; lra).
  assert (H1 : in_ellipse rx ry theta x y1) by (apply Hin; lra).
  apply in_ellipse_chord in H0 as (_ & Hlo & _); try assumption.
  apply in_ellipse_chord in H1 as (_ & _ & Hhi); try assumption.
  rewrite (Rmin_left y1), (Rmax_left y0) by assumption. apply Rmax_right. lra.
Qed.

(** A cell that misses the ellipse is not covered at all. *)
Lemma covered_area_outside (rx ry theta x0 x1 y0 y1 : R) :
  rx <> 0 -> ry <> 0 -> x0 <= x1 -> y0 <= y1 ->
  (forall x y, x0 <= x <= x1 -> y0 <= y <= y1 ->
               ~ in_ellipse rx ry theta x y) ->
  covered_area rx ry theta x0 x1 y0 y1 = 0.
Proof.
  intros Hrx Hry Hx Hy Hout. unfold covered_area.
  destruct (Req_dec_T (rx * ry) 0) as [E|_]; [reflexivity|].
  rewrite (integral_constant _ x0 x1 0); [ring|assumption| |
    apply covered_length_integrable].
  intros x Hx'. unfold covered_length.
  apply Rmax_left.
  destruct (Rle_dec (Rmin y1 (chord_hi rx ry theta x)
                     - Rmax y0 (chord_lo rx ry theta x)) 0) as [|Hpos];
    [assumption|]. exfalso.
  set (y := Rmax y0 (chord_lo rx ry theta x)) in *.
  assert (Hy0 : y0 <= y) by apply Rmax_l.
  assert (Hlo : chord_lo rx ry theta x <= y) by apply Rmax_r.
  assert (Hy1 : y < y1)
    by (pose proof (Rmin_l y1 (chord_hi rx ry theta x)); lra).
  assert (Hhi : y < chord_hi rx ry theta x)
    by (pose proof (Rmin_r y1 (chord_hi rx ry theta x)); lra).
  apply (Hout x y); [lra|lra|].
  apply in_ellipse_chord; try assumption.
  split; [|lra].
  (* the chord has positive length, so the discriminant is not negative *)
  destruct (Rle_dec 0 (chord_disc rx ry theta x)) as [|Hneg]; [assumption|].
  exfalso. unfold chord_lo, chord_hi in *.
  rewrite Rmax_left in * by lra. rewrite sqrt_0 in *. lra.
Qed.

(** The exact coverage of a cell is 1 when the cell lies in the ellipse and
    0 when it misses it. *)
Lemma exact_fraction_inside (x0 y0 dx dy rx ry theta : R) :
  rx <> 0 -> ry <> 0 -> 0 < dx -> 0 < dy ->
  (forall x y, x0 <= x <= x0 + dx -> y0 <= y <= y0 + dy ->
               in_ellipse rx ry theta x y) ->
  exact_fraction (Fin x0) (Fin y0) (Fin dx) (Fin dy)
                 (Fin rx) (Fin ry) (Fin theta) = Fin 1.
Proof.
  intros Hrx Hry Hdx Hdy Hin. unfold exact_fraction.
  assert (Hp : 0 < dx * dy) by (apply Rmult_lt_0_compat; assumption).
  rewrite covered_area_inside by (try assumption; lra).
  rewrite fdiv_Fin by lra. f_equal. field. lra.
Qed.

Lemma exact_fraction_outside (x0 y0 dx dy rx ry theta : R) :
  rx <> 0 -> ry <> 0 -> 0 < dx -> 0 < dy ->
  (forall x y, x0 <= x <= x0 + dx -> y0 <= y <= y0 + dy ->
               ~ in_ellipse rx ry theta x y) ->
  exact_fraction (Fin x0) (Fin y0) (Fin dx) (Fin dy)
                 (Fin rx) (Fin ry) (Fin theta) = Fin 0.
Proof.
  intros Hrx Hry Hdx Hdy Hout. unfold exact_fraction.
  assert (Hp : 0 < dx * dy) by (apply Rmult_lt_0_compat; assumption).
  rewrite covered_area_outside by (try assumption; lra).
  rewrite fdiv_Fin by lra. f_equal. field. lra.
Qed.

(** *** Mask values lie between 0 and 1 *)

Lemma integral_bounds (f : R -> R) (a b c : R) :
  a <= b -> (forall x, 0 <= f x <= c) ->
  0 <= integral f a b <= c * (b - a).
Proof.
  intros Hab Hf. unfold integral.
  destruct (excluded_middle_informative (inhabited (Riemann_integrable f a b)))
    as [H|H].
  - set (pr := proj1_sig _).
    split.
    + rewrite <- (Rmult_0_l (b - a)).
      rewrite <- (RiemannInt_P15 (RiemannInt_P14 a b 0)).
      apply RiemannInt_P19; [assumption|]. intros x _. apply Hf.
    + rewrite <- (RiemannInt_P15 (RiemannInt_P14 a b c)).
      apply RiemannInt_P19; [assumption|]. intros x _. apply Hf.
  - assert (0 <= c) by (destruct (Hf a); lra).
    split; [lra|]. apply Rmult_le_pos; lra.
Qed.

Lemma covered_length_bounds (rx ry theta y0 y1 x : R) :
  y0 <= y1 -> 0 <= covered_length rx ry theta y0 y1 x <= y1 - y0.
Proof.
  intros Hy. unfold covered_length. split.
  - apply Rmax_l.
  - apply Rmax_lub; [lra|].
    pose proof (Rmin_l y1 (chord_hi rx ry theta x)).
    pose proof (Rmax_l y0 (chord_lo rx ry theta x)). lra.
Qed.

Lemma covered_area_bounds (rx ry theta x0 x1 y0 y1 : R) :
  x0 <= x1 -> y0 <= y1 ->
  0 <= covered_area rx ry theta x0 x1 y0 y1 <= (y1 - y0) * (x1 - x0).
Proof.
  intros Hx Hy. unfold covered_area.
  destruct (Req_dec_T (rx * ry) 0).
  - split; [lra|]. apply Rmult_le_pos; lra.
  - apply integral_bounds; [assumption|].
    intros x. apply covered_length_bounds. assumption.
Qed.

Lemma exact_fraction_in_unit_interval (x0 y0 dx dy rx ry theta : R) :
  0 < dx -> 0 < dy ->
  in_unit_interval
    (exact_fraction (Fin x0) (Fin y0) (Fin dx) (Fin dy)
                    (Fin rx) (Fin ry) (Fin theta)).
Proof.
  intros Hdx Hdy. unfold exact_fraction.
  assert (Hp : 0 < dx * dy) by (apply Rmult_lt_0_compat; assumption).
  rewrite fdiv_Fin by lra.
  destruct (covered_area_bounds rx ry theta x0 (x0 + dx) y0 (y0 + dy))
    as [H0 H1]; [lra|lra|].
  replace ((y0 + dy - y0) * (x0 + dx - x0)) with (dx * dy) in H1 by ring.
  unfold in_unit_interval. rewrite !fle_Fin. split.
  - apply Rmult_le_pos; [assumption|]. left. apply Rinv_0_lt_compat. assumption.
  - apply Rmult_le_reg_r with (dx * dy); [assumption|].
    unfold Rdiv. rewrite Rmult_assoc, Rinv_l by lra. lra.
Qed.

Lemma indices_length (n : Z) : length (indices n) = Z.to_nat n.
Proof. unfold indices. rewrite length_map, length_seq. reflexivity. Qed.

Lemma ratio_in_unit_interval (n t : nat) :
  (n <= t)%nat -> (0 < t)%nat ->
  in_unit_interval
    (float_of_int (Z.of_nat n) / float_of_int (Z.of_nat t))%fl.
Proof.
  intros Hn Ht. unfold float_of_int.
  assert (H0 : 0 < IZR (Z.of_nat t)) by (apply IZR_lt; lia).
  assert (H1 : 0 <= IZR (Z.of_nat n) <= IZR (Z.of_nat t))
    by (split; apply IZR_le; lia).
  rewrite fdiv_Fin by lra.
  unfold in_unit_interval. rewrite !fle_Fin. split.
  - apply Rmult_le_pos; [lra|]. left. apply Rinv_0_lt_compat. assumption.
  - apply Rmult_le_reg_r with (IZR (Z.of_nat t)); [assumption|].
    unfold Rdiv. rewrite Rmult_assoc, Rinv_l by lra. lra.
Qed.

Lemma subpixel_fraction_in_unit_interval
    (x0 y0 dx dy rx ry theta : pyfloat) (subpixels : Z) :
  (1 <= subpixels)%Z ->
  in_unit_interval (subpixel_fraction x0 y0 dx dy rx ry theta subpixels).
Proof.
  intros Hs. unfold subpixel_fraction. apply ratio_in_unit_interval.
  - apply List.filter_length_le.
  - rewrite length_prod, indices_length. 
    assert (0 < Z.to_nat subpixels)%nat by lia. nia.
Qed.

Lemma subpixel_center_Fin (lo d : R) (s k : Z) :
  s <> 0%Z ->
  subpixel_center (Fin lo) (Fin d) s k
  = Fin (lo + (IZR k + 1 / 2) * (d / IZR s)).
Proof.
  intros Hs. unfold subpixel_center, float_of_int.
  rewrite fdiv_Fin by (apply not_0_IZR; assumption). reflexivity.
Qed.

(** One sample per cell: the cell around the center of the scenario's
    ellipse is covered, the cell at the lower left corner of its extent is
    not. *)
Example subpixel_fraction_center_cell :
  subpixel_fraction (Fin (- (1 / 2))) (Fin (- (1 / 2))) (Fin 1) (Fin 1)
                    (Fin 8) (Fin 5) (Fin 0) 1
  = Fin 1.
Proof.
  unfold subpixel_fraction. change (indices 1) with [0%Z].
  cbn [list_prod map app List.filter].
  rewrite !subpixel_center_Fin by discriminate.
  assert (H : in_ell (origin_ellipse (Fin 8) (Fin 5) (Fin 0))
                (mkPixCoord (Fin (- (1 / 2) + (0 + 1 / 2) * (1 / 1)))
                            (Fin (- (1 / 2) + (0 + 1 / 2) * (1 / 1)))) = true).
  { apply in_ell_origin_ellipse. unfold in_ellipse. rewrite cos_0, sin_0.
    repeat split; lra. }
  rewrite H. cbn [length]. change (Z.of_nat 1) with 1%Z. unfold float_of_int.
  rewrite fdiv_Fin by lra. f_equal. lra.
Qed.

Example subpixel_fraction_corner_cell :
  subpixel_fraction (Fin (- (17 / 2))) (Fin (- (11 / 2))) (Fin 1) (Fin 1)
                    (Fin 8) (Fin 5) (Fin 0) 1
  = Fin 0.
Proof.
  unfold subpixel_fraction. change (indices 1) with [0%Z].
  cbn [list_prod map app List.filter].
  rewrite !subpixel_center_Fin by discriminate.
  assert (H : in_ell (origin_ellipse (Fin 8) (Fin 5) (Fin 0))
                (mkPixCoord (Fin (- (17 / 2) + (0 + 1 / 2) * (1 / 1)))
                            (Fin (- (11 / 2) + (0 + 1 / 2) * (1 / 1)))) = false).
  { apply not_true_is_false. intros H. apply in_ell_origin_ellipse in H.
    destruct H as (_ & _ & H). unfold in_ellipse in H.
    rewrite cos_0, sin_0 in H. lra. }
  rewrite H. cbn [length]. change (Z.of_nat 1) with 1%Z.
  change (Z.of_nat 0) with 0%Z. unfold float_of_int.
  rewrite fdiv_Fin by lra. f_equal. lra.
Qed.

Lemma spec_validate_mode_ok (mode : string) (subpixels : Z) :
  spec_validate_mode mode subpixels = Ok tt -> (1 <= subpixels)%Z.
Proof.
  unfold spec_validate_mode.
  destruct (negb _); [discriminate|].
  destruct (subpixels <? 1)%Z eqn:E; [discriminate|]. intros _. lia.
Qed.

Lemma in_indices (n i : Z) : In i (indices n) -> (0 <= i < n)%Z.
Proof.
  unfold indices. rewrite in_map_iff. intros (k & <- & Hk).
  apply in_seq in Hk. lia.
Qed.


(** C1.  For every ellipse with real parameters and every mode, every entry
    of the mask that [to_mask] returns lies in the closed interval from 0 to
    1, whatever box [BoundingBox.from_float] makes of the extent, and for
    every [_validate_mode] that lets mode ['subpixels'] pass only with
    [subpixels >= 1].  The grid is the overlap grid modelled from the spec:
    a ratio of counts in the sampling modes, the covered area over the area
    of the cell in the exact mode. *)
Theorem to_mask_coverage_in_unit_interval
    (from_float : pyfloat -> pyfloat -> pyfloat -> pyfloat -> result BoundingBox)
    (_validate_mode : string -> Z -> result Datatypes.unit)
    (cx cy w h a : R) (u : angle_unit) (m v : gmap string pyval)
    (mode : string) (subpixels : Z) (mask : RegionMask) :
  (forall s, _validate_mode "subpixels" s = Ok tt -> (1 <= s)%Z) ->
  to_mask from_float _validate_mode spec_elliptical_overlap_grid
          (mkEllipsePixelRegion (mkPixCoord (Fin cx) (Fin cy)) (Fin w) (Fin h)
                                (mkQuantity (Fin a) u) m v)
          mode subpixels = Ok mask ->
  Forall (Forall in_unit_interval) (data mask).
Proof.
  unfold to_mask. intros Hvalid H.
  destruct (_validate_mode mode subpixels) as [[]|] eqn:Hv; [|discriminate].
  cbn [result_bind] in H.
  destruct (bounding_box from_float _) as [box|] eqn:Hb;
    [|destruct (String.eqb mode "center"); discriminate].
  assert (Hgrid : forall mode' s',
    ((mode' =? "subpixels")%string = true -> (1 <= s')%Z) ->
    Forall (Forall in_unit_interval)
      (spec_elliptical_overlap_grid
         (float_of_int (ixmin box) - Fin (1 / 2) - Fin cx)%fl
         (float_of_int (ixmax box) - Fin (1 / 2) - Fin cx)%fl
         (float_of_int (iymin box) - Fin (1 / 2) - Fin cy)%fl
         (float_of_int (iymax box) - Fin (1 / 2) - Fin cy)%fl
         (ixmax box - ixmin box) (iymax box - iymin box)
         (Fin (1 / 2) * Fin w)%fl (Fin (1 / 2) * Fin h)%fl
         (value (to rad (mkQuantity (Fin a) u)))
         (if (mode' =? "subpixels")%string then 0%Z else 1%Z) s')).
  { intros mode' s' Hs. unfold spec_elliptical_overlap_grid.
    apply List.Forall_forall. intros row Hrow.
    apply in_map_iff in Hrow as (j & <- & Hj).
    apply List.Forall_forall. intros cell Hcell.
    apply in_map_iff in Hcell as (i & <- & Hi).
    apply in_indices in Hi. apply in_indices in Hj.
    destruct (mode' =? "subpixels")%string; cbn [Z.eqb Pos.eqb].
    - apply subpixel_fraction_in_unit_interval. auto.
    - unfold float_of_int. rewrite !fsub_Fin.
      rewrite !fdiv_Fin by (apply not_0_IZR; lia).
      rewrite !fmul_Fin, !fadd_Fin.
      destruct u; cbn [to unit value fmul];
        apply exact_fraction_in_unit_interval.
      all: rewrite minus_IZR;
        match goal with |- 0 < ?e / ?d => replace e with d by ring end;
        unfold Rdiv; rewrite Rinv_r; try lra;
        rewrite <- minus_IZR; apply not_0_IZR; lia. }
  destruct (String.eqb mode "center") eqn:Hc;
    cbn [result_bind] in H; unfold shape in H; injection H as <-;
    cbn [data center x y width height angle].
  - apply (Hgrid "subpixels"%string 1%Z). intros _. lia.
  - apply (Hgrid mode subpixels).
    intros Hm. apply String.eqb_eq in Hm. subst mode. apply Hvalid, Hv.
Qed.

(** ** The properties on concrete inputs *)

Lemma scenario_bounding_box :
  bounding_box spec_from_float scenario_ellipse
  = Ok (mkBoundingBox 7 23 5 15).
Proof.
  unfold bounding_box, scenario_ellipse.
  rewrite (extents_even_quarter 15 10 16 10 _ ∅ ∅ 0 0)
    by (try lra; auto using zero_deg_radians, zero_quarter_turns).
  unfold spec_from_float.
  rewrite (Zfloor_eq 7), (Zfloor_eq 5), (Zceil_eq 23), (Zceil_eq 15) by lra.
  reflexivity.
Defined.

Lemma to_mask_coverage_in_unit_interval_witness :
  exists mask,
    to_mask spec_from_float spec_validate_mode spec_elliptical_overlap_grid
            scenario_ellipse "exact" 5 = Ok mask /\
    Forall (Forall in_unit_interval) (data mask).
Proof.
  assert (H : exists mask,
             to_mask spec_from_float spec_validate_mode
                     spec_elliptical_overlap_grid
                     scenario_ellipse "exact" 5 = Ok mask).
  { unfold to_mask. cbn [spec_validate_mode String.eqb Ascii.eqb Bool.eqb
                         negb orb Z.ltb Z.compare Pos.compare Pos.compare_cont
                         result_bind].
    rewrite scenario_bounding_box. cbn [result_bind shape]. eauto. }
  destruct H as [mask H]. exists mask. split; [exact H|].
  exact (to_mask_coverage_in_unit_interval spec_from_float spec_validate_mode
           15 10 16 10 0 deg ∅ ∅ "exact" 5 mask
           (spec_validate_mode_ok "subpixels") H).
Defined.

Lemma to_mask_center_is_subpixels_1_witness :
  to_mask spec_from_float spec_validate_mode spec_elliptical_overlap_grid
          scenario_ellipse "center" 5
  = to_mask spec_from_float spec_validate_mode spec_elliptical_overlap_grid
            scenario_ellipse "subpixels" 1.
Proof.
  apply to_mask_center_is_subpixels_1; reflexivity.
Defined.


Lemma example_heap_pixel :
  example_heap !! 1%positive
  = Some (PixelObject (mkPixelObject scenario_ellipse None None)).
Proof.
  unfold example_heap. rewrite lookup_insert_ne by discriminate.
  apply lookup_singleton_eq.
Defined.

Lemma example_heap_sky :
  example_heap !! 2%positive = Some (SkyObject example_sky_ellipse).
Proof. unfold example_heap. apply lookup_insert_eq. Defined.

(** On the example heap, with the scenario's ellipse (no selector, angle
    0), [as_mpl_selector] returns the selector and attaches it. *)
Lemma as_mpl_selector_errors_witness :
  match as_mpl_selector example_run_callback 1%positive tt true true (Some tt)
          example_heap with
  | (Raise e, h') => False
  | (Ok sel, h') =>
      exists o', h' !! 1%positive = Some (PixelObject o') /\
                 _mpl_selector o' = Some sel
  end.
Proof.
  pose proof (as_mpl_selector_errors example_run_callback example_heap
                1%positive _ tt true true (Some tt) example_heap_pixel) as H.
  destruct (as_mpl_selector example_run_callback 1%positive tt true true
              (Some tt) example_heap) as [[sel|e] h'].
  - destruct H as (_ & _ & o' & H1 & H2 & _). exists o'. auto.
  - destruct H as [_ [[H _]|(_ & H & _)]].
    + discriminate H.
    + cbn in H. destruct (Req_dec_T 0 0); [discriminate|contradiction].
Defined.

(** On the example heap, the scenario's ellipse becomes a sky ellipse of
    width 16 / 2 degrees, the sky ellipse of width 8 degrees becomes a pixel
    ellipse of width 8 * 2, and both sources stay in the heap. *)
Lemma conversions_new_instance_witness :
  (exists l s',
     to_sky_call example_pixel_to_skycoord
                 example_skycoord_to_pixel_scale_angle 1%positive tt
                 example_heap
     = (Ok l, <[l := SkyObject s']> example_heap) /\
     (<[l := SkyObject s']> example_heap) !! 1%positive
     = Some (PixelObject (mkPixelObject scenario_ellipse None None)) /\
     sky_width s' = mkQuantity (Fin 16 / Fin 2)%fl deg) /\
  (exists l e',
     to_pixel_call example_skycoord_to_pixel_scale_angle 2%positive tt
                   example_heap
     = (Ok l, <[l := PixelObject (mkPixelObject e' None None)]> example_heap) /\
     (<[l := PixelObject (mkPixelObject e' None None)]> example_heap)
       !! 2%positive = Some (SkyObject example_sky_ellipse) /\
     width e' = (Fin 8 * Fin 2)%fl).
Proof.
  destruct (conversions_new_instance example_pixel_to_skycoord
              example_skycoord_to_pixel_scale_angle example_heap
              1%positive 2%positive _ _ tt
              example_heap_pixel example_heap_sky) as [Hs Hp].
  split.
  - destruct Hs as (l & s' & H1 & _ & H2 & _ & H3 & _).
    exists l, s'. auto.
  - destruct Hp as (l & e' & H1 & _ & H2 & _ & H3 & _).
    exists l, e'. auto.
Defined.

(** * Further properties of the code *)

(** ** Helpers *)

Lemma bool_eq_iff (a b : bool) : (a = true <-> b = true) -> a = b.
Proof.
  destruct a, b; intros [H1 H2]; auto.
  - symmetry. auto.
Qed.

Lemma cos2_sin2 (theta : R) :
  cos theta * cos theta + sin theta * sin theta = 1.
Proof. pose proof (sin2_cos2 theta) as H. unfold Rsqr in H. lra. Qed.

Lemma to_rad_Fin (a : R) (u : angle_unit) :
  value (to rad (mkQuantity (Fin a) u)) = Fin (radians u a).
Proof. destruct u; reflexivity. Qed.

Lemma to_Fin (u ub : angle_unit) (b : R) :
  to u (mkQuantity (Fin b) ub) = mkQuantity (Fin (convert_angle ub u b)) u.
Proof. destruct u, ub; reflexivity. Qed.

Lemma qadd_Fin (a b : R) (u ub : angle_unit) :
  qadd (mkQuantity (Fin a) u) (mkQuantity (Fin b) ub)
  = mkQuantity (Fin (a + convert_angle ub u b)) u.
Proof. unfold qadd. cbn [unit value]. rewrite to_Fin. reflexivity. Qed.

Lemma radians_convert_angle (ub u : angle_unit) (b : R) :
  radians u (convert_angle ub u b) = radians ub b.
Proof.
  pose proof PI_neq0.
  destruct ub, u; unfold radians, convert_angle; try reflexivity;
    field; assumption.
Qed.

Lemma radians_plus (u : angle_unit) (a b : R) :
  radians u (a + b) = radians u a + radians u b.
Proof. destruct u; unfold radians; ring. Qed.

Lemma radians_opp (u : angle_unit) (a : R) : radians u (- a) = - radians u a.
Proof. destruct u; unfold radians; ring. Qed.

Lemma convert_angle_opp (ub u : angle_unit) (b : R) :
  convert_angle ub u (- b) = - convert_angle ub u b.
Proof. destruct ub, u; unfold convert_angle; ring. Qed.

Lemma fne_zero_false (v : pyfloat) : (v !=? Fin 0)%fl = false -> v = Fin 0.
Proof.
  destruct v as [r| | |]; cbn; try discriminate.
  destruct (Req_dec_T r 0) as [->|]; [reflexivity|discriminate].
Qed.

Lemma fne_zero_zero : (Fin 0 !=? Fin 0)%fl = false.
Proof. cbn. destruct (Req_dec_T 0 0); [reflexivity|contradiction]. Defined.

(** NaN goes through every operation. *)
Lemma fadd_nan_l (a : pyfloat) : (NaN + a)%fl = NaN.
Proof. destruct a; reflexivity. Qed.

Lemma fmul_nan_l (a : pyfloat) : (NaN * a)%fl = NaN.
Proof. destruct a; reflexivity. Qed.

Lemma fsub_nan_l (a : pyfloat) : (NaN - a)%fl = NaN.
Proof. destruct a; reflexivity. Qed.

Lemma fsub_nan_r (a : pyfloat) : (a - NaN)%fl = NaN.
Proof. destruct a; reflexivity. Qed.

Lemma fdiv_nan_l (a : pyfloat) : (NaN / a)%fl = NaN.
Proof. destruct a; reflexivity. Qed.

Lemma fdiv_nan_r (a : pyfloat) : (a / NaN)%fl = NaN.
Proof. destruct a; reflexivity. Qed.

Lemma fsqr_nan : fsqr NaN = NaN.
Proof. reflexivity. Qed.

Lemma fle_nan_l (a : pyfloat) : (NaN <=? a)%fl = false.
Proof. destruct a; reflexivity. Qed.

Lemma np_cos_nan (q : Quantity) : value q = NaN -> np_cos q = NaN.
Proof. destruct q as [v [|]]; cbn; intros ->; reflexivity. Qed.

Lemma np_sin_nan (q : Quantity) : value q = NaN -> np_sin q = NaN.
Proof. destruct q as [v [|]]; cbn; intros ->; reflexivity. Qed.

Create Rewrite HintDb nan_rules.
#[local] Hint Rewrite fadd_nan_l fadd_nan_r fmul_nan_l fmul_nan_r
  fsub_nan_l fsub_nan_r fdiv_nan_l fdiv_nan_r fsqr_nan fle_nan_l : nan_rules.

(** ** Containment: degenerate values and symmetries *)

(** Any quotient by zero is an infinity or NaN. *)
Lemma fdiv_zero_special (n : pyfloat) :
  (n / Fin 0)%fl = PInf \/ (n / Fin 0)%fl = NInf \/ (n / Fin 0)%fl = NaN.
Proof.
  destruct n as [r| | |].
  - rewrite fdiv_Fin_zero. destruct (Rsign r); cbn; auto.
  - cbn. rewrite Rsign_zero. auto.
  - cbn. rewrite Rsign_zero. auto.
  - cbn. auto.
Qed.

Lemma fsqr_div_zero_any (n t : pyfloat) (b : R) :
  (fsqr (n / Fin 0) + t <=? Fin b)%fl = false /\
  (t + fsqr (n / Fin 0) <=? Fin b)%fl = false.
Proof.
  destruct (fdiv_zero_special n) as [-> | [-> | ->]];
    split; destruct t; reflexivity.
Qed.

Lemma contains_outside (self : EllipsePixelRegion) (p : PixCoord) :
  in_ell self p = false ->
  contains self p
  = negb (truthy (dict_get (meta self) "include" (PyBool true))).
Proof.
  intros E. unfold contains. rewrite E. destruct (truthy _); reflexivity.
Qed.

Lemma contains_in_ell_eq (e1 e2 : EllipsePixelRegion) (p1 p2 : PixCoord) :
  meta e1 = meta e2 -> in_ell e1 p1 = in_ell e2 p2 ->
  contains e1 p1 = contains e2 p2.
Proof. unfold contains. intros -> ->. reflexivity. Qed.

(** The center of an ellipse with non-zero width and height is in it. *)
Lemma contains_center_Fin
    (cx cy w h a : R) (u : angle_unit) (m v : gmap string pyval) :
  w <> 0 -> h <> 0 ->
  truthy (dict_get m "include" (PyBool true)) = true ->
  contains (mkEllipsePixelRegion (mkPixCoord (Fin cx) (Fin cy)) (Fin w) (Fin h)
                                 (mkQuantity (Fin a) u) m v)
           (mkPixCoord (Fin cx) (Fin cy)) = true.
Proof.
  intros Hw Hh Hinc. unfold contains. cbn [meta]. rewrite Hinc.
  apply in_ell_Fin. cbv zeta. split; [exact Hw|split; [exact Hh|]].
  replace (cx - cx) with 0 by ring. replace (cy - cy) with 0 by ring.
  rewrite !Rmult_0_r, Rplus_0_r, Rminus_0_r, Rmult_0_r.
  unfold Rdiv. rewrite !Rmult_0_l, pow_i by lia. lra.
Defined.

(** X1.  An ellipse whose width or height is zero contains no point at all,
    its center included: the quotient by the zero axis is an infinity or
    NaN, the comparison with 1 is false, and [contains] returns False for
    every point when [include] is true, and True for every point when
    [include] is false.  For all float values of the other parameters and
    of the point. *)
Theorem contains_zero_axis (self : EllipsePixelRegion) (p : PixCoord) :
  width self = Fin 0 \/ height self = Fin 0 ->
  in_ell self p = false /\
  contains self p
  = negb (truthy (dict_get (meta self) "include" (PyBool true))).
Proof.
  intros H.
  assert (E : in_ell self p = false).
  { unfold in_ell. destruct H as [-> | ->].
    - apply (proj1 (fsqr_div_zero_any _ _ _)).
    - apply (proj2 (fsqr_div_zero_any _ _ _)). }
  split; [exact E | apply contains_outside, E].
Qed.

(** X2.  When a coordinate of the point, a coordinate of the center, the
    width, the height or the angle is NaN, the ellipse inequality is false:
    [contains] returns False when [include] is true and True when [include]
    is false.  Nothing is raised. *)
Theorem contains_nan (self : EllipsePixelRegion) (p : PixCoord) :
  x p = NaN \/ y p = NaN \/
  x (center self) = NaN \/ y (center self) = NaN \/
  width self = NaN \/ height self = NaN \/ value (angle self) = NaN ->
  in_ell self p = false /\
  contains self p
  = negb (truthy (dict_get (meta self) "include" (PyBool true))).
Proof.
  intros H.
  assert (E : in_ell self p = false).
  { unfold in_ell.
    destruct H as [H|[H|[H|[H|[H|[H|H]]]]]];
      rewrite ?H, ?(np_cos_nan _ H), ?(np_sin_nan _ H);
      autorewrite with nan_rules; reflexivity. }
  split; [exact E | apply contains_outside, E].
Qed.

(** X3.  Containment is symmetric about the center: for real parameters and
    every offset, the point [center + (dx, dy)] and the point
    [center - (dx, dy)] get the same answer from [contains], whatever the
    [include] flag. *)
Theorem contains_point_symmetry
    (cx cy w h a : R) (u : angle_unit) (m v : gmap string pyval) (dx dy : R) :
  let e := mkEllipsePixelRegion (mkPixCoord (Fin cx) (Fin cy)) (Fin w) (Fin h)
                                (mkQuantity (Fin a) u) m v in
  contains e (mkPixCoord (Fin (cx + dx)) (Fin (cy + dy)))
  = contains e (mkPixCoord (Fin (cx - dx)) (Fin (cy - dy))).
Proof.
  intros e. apply contains_in_ell_eq; [reflexivity|].
  apply bool_eq_iff. unfold e. rewrite !in_ell_Fin. cbv zeta.
  replace (cx + dx - cx) with dx by ring.
  replace (cy + dy - cy) with dy by ring.
  replace (cx - dx - cx) with (- dx) by ring.
  replace (cy - dy - cy) with (- dy) by ring.
  set (c := cos _). set (s := sin _).
  replace ((2 * (c * - dx + s * - dy) / w) ^ 2)
    with ((2 * (c * dx + s * dy) / w) ^ 2) by (unfold Rdiv; ring).
  replace ((2 * (s * - dx - c * - dy) / h) ^ 2)
    with ((2 * (s * dx - c * dy) / h) ^ 2) by (unfold Rdiv; ring).
  tauto.
Qed.



Lemma scaled_square_le (t w w' : R) :
  0 < w -> w <= w' -> (2 * t / w') ^ 2 <= (2 * t / w) ^ 2.
Proof.
  intros Hw Hle.
  replace ((2 * t / w') ^ 2) with ((2 * t / w) ^ 2 * (w / w') ^ 2)
    by (field; lra).
  assert (H1 : 0 <= (2 * t / w) ^ 2) by apply pow2_ge_0.
  assert (H2 : (w / w') ^ 2 <= 1).
  { assert (0 < w / w' <= 1).
    { split; [apply Rdiv_lt_0_compat; lra|].
      apply (Rmult_le_reg_r w'); [lra|]. unfold Rdiv.
      rewrite Rmult_assoc, Rinv_l by lra. lra. }
    nra. }
  nra.
Qed.

(** X6.  Containment grows with the axes: a point that [contains] accepts
    for an ellipse with positive width and height is accepted for every
    ellipse with the same center and angle and a width and height at least
    as large ([include] true). *)
Theorem contains_monotone
    (cx cy w h w' h' a : R) (u : angle_unit) (m v : gmap string pyval)
    (px py : R) :
  0 < w -> 0 < h -> w <= w' -> h <= h' ->
  truthy (dict_get m "include" (PyBool true)) = true ->
  contains (mkEllipsePixelRegion (mkPixCoord (Fin cx) (Fin cy)) (Fin w) (Fin h)
                                 (mkQuantity (Fin a) u) m v)
           (mkPixCoord (Fin px) (Fin py)) = true ->
  contains (mkEllipsePixelRegion (mkPixCoord (Fin cx) (Fin cy))
                                 (Fin w') (Fin h') (mkQuantity (Fin a) u) m v)
           (mkPixCoord (Fin px) (Fin py)) = true.
Proof.
  intros Hw Hh Hw' Hh' Hinc. unfold contains. cbn [meta]. rewrite Hinc.
  rewrite !in_ell_Fin. cbv zeta. intros (_ & _ & H).
  split; [lra|split; [lra|]].
  pose proof (scaled_square_le
                (cos (radians u a) * (px - cx) + sin (radians u a) * (py - cy))
                w w' Hw Hw').
  pose proof (scaled_square_le
                (sin (radians u a) * (px - cx) - cos (radians u a) * (py - cy))
                h h' Hh Hh').
  lra.
Qed.

(** ** The bounding box at every angle *)

Lemma Rabs_of_square (d e : R) : 0 <= e -> d * d = e * e -> Rabs d = e.
Proof.
  intros He H. rewrite <- (Rabs_pos_eq e He).
  apply Rsqr_eq_abs_0. exact H.
Qed.

Lemma half_extent_sqr (a b : R) :
  (sqrt (a ^ 2 + b ^ 2) / 2) * (sqrt (a ^ 2 + b ^ 2) / 2) = (a ^ 2 + b ^ 2) / 4.
Proof.
  assert (H : 0 <= a ^ 2 + b ^ 2) by nra.
  pose proof (sqrt_sqrt _ H). nra.
Qed.

Lemma half_extent_nonneg (a b : R) : 0 <= sqrt (a ^ 2 + b ^ 2) / 2.
Proof. pose proof (sqrt_pos (a ^ 2 + b ^ 2)). lra. Qed.

(** The offset [a cos t - b sin t] at the root [t = atan (- b / a)] of its
    derivative. *)
Lemma root_offset (a b : R) :
  a <> 0 ->
  Rabs (a * cos (atan (- b / a)) - b * sin (atan (- b / a)))
  = sqrt (a ^ 2 + b ^ 2).
Proof.
  intros Ha. rewrite cos_atan, sin_atan.
  assert (Hp : 0 < 1 + (- b / a)²).
  { unfold Rsqr. nra. }
  pose proof (sqrt_lt_R0 _ Hp) as Hs.
  pose proof (sqrt_sqrt _ (Rlt_le _ _ Hp)) as Hss.
  apply Rabs_of_square; [apply sqrt_pos|].
  rewrite sqrt_sqrt by nra.
  set (r := sqrt (1 + (- b / a)²)) in *.
  assert (E : (a * (1 / r) - b * (- b / a / r)) = (a ^ 2 + b ^ 2) / (a * r)).
  { field. split; lra. }
  rewrite E.
  replace ((a ^ 2 + b ^ 2) / (a * r) * ((a ^ 2 + b ^ 2) / (a * r)))
    with ((a ^ 2 + b ^ 2) ^ 2 / (a ^ 2 * (r * r))) by (field; split; lra).
  rewrite Hss. unfold Rsqr. field. split; [lra|].
  pose proof (Rsqr_pos_lt a Ha) as Hq. unfold Rsqr in Hq. nra.
Qed.

(** The extent of an ellipse with positive width and height, at every
    angle. *)
Lemma extents_closed_form (cx cy w h : R) (q : Quantity)
    (m v : gmap string pyval) (theta : R) :
  0 < w -> 0 < h -> value (to rad q) = Fin theta ->
  bounding_box_extents
    (mkEllipsePixelRegion (mkPixCoord (Fin cx) (Fin cy)) (Fin w) (Fin h) q m v)
  = (Fin (cx - half_extent_x w h theta), Fin (cx + half_extent_x w h theta),
     Fin (cy - half_extent_y w h theta), Fin (cy + half_extent_y w h theta)).
Proof.
  intros Hw Hh Hq. unfold half_extent_x, half_extent_y.
  destruct (Req_dec_T (sin theta) 0) as [Hs|Hs].
  { destruct (sin_eq_0_0 _ Hs) as [k Hk].
    rewrite (extents_even_quarter cx cy w h q m v (2 * k) theta Hw Hh Hq).
    - pose proof (cos2_sin2 theta) as Hc. rewrite Hs in *.
      assert (Hc' : cos theta = 1 \/ cos theta = -1)
        by (apply unit_square_root; lra).
      replace (sqrt ((w * cos theta) ^ 2 + (h * 0) ^ 2)) with w.
      + replace (sqrt ((h * cos theta) ^ 2 + (w * 0) ^ 2)) with h.
        * reflexivity.
        * symmetry. replace ((h * cos theta) ^ 2 + (w * 0) ^ 2) with (h * h)
            by (destruct Hc' as [-> | ->]; ring).
          apply sqrt_square; lra.
      + symmetry. replace ((w * cos theta) ^ 2 + (h * 0) ^ 2) with (w * w)
          by (destruct Hc' as [-> | ->]; ring).
        apply sqrt_square; lra.
    - rewrite mult_IZR. lra.
    - rewrite Z.even_mul. reflexivity. }
  destruct (Req_dec_T (cos theta) 0) as [Hc|Hc].
  { destruct (cos_eq_0_0 _ Hc) as [k Hk].
    rewrite (extents_odd_quarter cx cy w h q m v (2 * k + 1) theta Hw Hh Hq).
    - pose proof (cos2_sin2 theta) as Hc2. rewrite Hc in *.
      assert (Hs' : sin theta = 1 \/ sin theta = -1)
        by (apply unit_square_root; lra).
      replace (sqrt ((w * 0) ^ 2 + (h * sin theta) ^ 2)) with h.
      + replace (sqrt ((h * 0) ^ 2 + (w * sin theta) ^ 2)) with w.
        * reflexivity.
        * symmetry. replace ((h * 0) ^ 2 + (w * sin theta) ^ 2) with (w * w)
            by (destruct Hs' as [-> | ->]; ring).
          apply sqrt_square; lra.
      + symmetry. replace ((w * 0) ^ 2 + (h * sin theta) ^ 2) with (h * h)
          by (destruct Hs' as [-> | ->]; ring).
        apply sqrt_square; lra.
    - rewrite plus_IZR, mult_IZR. lra.
    - rewrite Z.even_add, Z.even_mul. reflexivity. }
  assert (Htan : np_tan q = Fin (sin theta / cos theta)).
  { rewrite (np_tan_value q theta Hq). apply fdiv_Fin. exact Hc. }
  rewrite (extents_symmetric cx cy w h q m v (cos theta) (sin theta)
             (atan (- (h * sin theta) / (w * cos theta)))
             (atan (- (- (h * cos theta)) / (w * sin theta)))).
  - pose proof (root_offset (w * cos theta) (h * sin theta)) as Hx.
    pose proof (root_offset (w * sin theta) (- (h * cos theta))) as Hy.
    assert (Hwc : w * cos theta <> 0)
      by (apply Rmult_integral_contrapositive; split; lra).
    assert (Hws : w * sin theta <> 0)
      by (apply Rmult_integral_contrapositive; split; lra).
    specialize (Hx Hwc). specialize (Hy Hws).
    set (tx := atan (- (h * sin theta) / (w * cos theta))) in *.
    set (ty := atan (- (- (h * cos theta)) / (w * sin theta))) in *.
    replace (1 / 2 * w * cos theta * cos tx - 1 / 2 * h * sin theta * sin tx)
      with (1 / 2 * (w * cos theta * cos tx - h * sin theta * sin tx)) by ring.
    replace (1 / 2 * h * cos theta * sin ty + 1 / 2 * w * sin theta * cos ty)
      with (1 / 2 * (w * sin theta * cos ty - - (h * cos theta) * sin ty))
      by ring.
    rewrite !Rabs_mult, Hx, Hy, (Rabs_pos_eq (1 / 2)) by lra.
    replace ((- (h * cos theta)) ^ 2) with ((h * cos theta) ^ 2) by ring.
    rewrite (Rplus_comm ((w * sin theta) ^ 2)).
    fin_tuple.
  - apply np_cos_value; assumption.
  - apply np_sin_value; assumption.
  - rewrite Htan, fopp_Fin, fmul_Fin, fdiv_Fin by lra. cbn.
    f_equal. f_equal. field. split; lra.
  - rewrite Htan, !fdiv_Fin; try lra.
    + cbn. f_equal. f_equal. field. split; [|split]; lra.
    + intros E. apply Rmult_integral in E.
      destruct E as [E|E]; [lra|].
      apply Rinv_neq_0_compat in Hc. lra.
Qed.

Lemma cauchy_schwarz_2 (a b p q : R) :
  (a * p + b * q) ^ 2 <= (a ^ 2 + b ^ 2) * (p ^ 2 + q ^ 2).
Proof. pose proof (pow2_ge_0 (a * q - b * p)). nra. Qed.

Lemma square_le_bound (d e : R) : 0 <= e -> d * d <= e * e -> - e <= d <= e.
Proof. intros He H. split; nra. Qed.

Lemma square_le_reg (p q : R) : 0 <= q -> p * p <= q * q -> p <= q.
Proof. intros Hq H. nra. Qed.

Lemma square_lt_reg (p q : R) : 0 <= q -> p * p < q * q -> p < q.
Proof. intros Hq H. nra. Qed.

(** A point of the ellipse is within the half extents of its center. *)
Lemma ellipse_point_bound (w h theta dx dy : R) :
  0 < w -> 0 < h ->
  (2 * (cos theta * dx + sin theta * dy) / w) ^ 2 +
  (2 * (sin theta * dx - cos theta * dy) / h) ^ 2 <= 1 ->
  - half_extent_x w h theta <= dx <= half_extent_x w h theta /\
  - half_extent_y w h theta <= dy <= half_extent_y w h theta.
Proof.
  intros Hw Hh H. pose proof (cos2_sin2 theta) as Hcs.
  set (c := cos theta) in *. set (s := sin theta) in *.
  set (P := 2 * (c * dx + s * dy) / w) in *.
  set (Q := 2 * (s * dx - c * dy) / h) in *.
  assert (Hdx : dx = (w * c / 2) * P + (h * s / 2) * Q).
  { unfold P, Q.
    replace dx with ((c * c + s * s) * dx) at 1 by (rewrite Hcs; ring).
    field. lra. }
  assert (Hdy : dy = (w * s / 2) * P + (- (h * c) / 2) * Q).
  { unfold P, Q.
    replace dy with ((c * c + s * s) * dy) at 1 by (rewrite Hcs; ring).
    field. lra. }
  pose proof (cauchy_schwarz_2 (w * c / 2) (h * s / 2) P Q) as Cx.
  pose proof (cauchy_schwarz_2 (w * s / 2) (- (h * c) / 2) P Q) as Cy.
  rewrite <- Hdx in Cx. rewrite <- Hdy in Cy.
  unfold half_extent_x, half_extent_y. fold c s.
  split; apply square_le_bound; try apply half_extent_nonneg;
    rewrite half_extent_sqr.
  - assert (0 <= (w * c / 2) ^ 2 + (h * s / 2) ^ 2) by nra. nra.
  - assert (0 <= (w * s / 2) ^ 2 + (- (h * c) / 2) ^ 2) by nra. nra.
Qed.

Lemma half_extent_x_sqr (w h theta : R) :
  4 * (half_extent_x w h theta * half_extent_x w h theta)
  = (w * cos theta) ^ 2 + (h * sin theta) ^ 2.
Proof. unfold half_extent_x. rewrite half_extent_sqr. field. Qed.

Lemma half_extent_y_sqr (w h theta : R) :
  4 * (half_extent_y w h theta * half_extent_y w h theta)
  = (h * cos theta) ^ 2 + (w * sin theta) ^ 2.
Proof. unfold half_extent_y. rewrite half_extent_sqr. field. Qed.

Lemma half_extent_x_pos (w h theta : R) :
  0 < w -> 0 < h -> 0 < half_extent_x w h theta.
Proof.
  intros Hw Hh. pose proof (cos2_sin2 theta) as Hcs.
  unfold half_extent_x.
  assert (0 < sqrt ((w * cos theta) ^ 2 + (h * sin theta) ^ 2)); [|lra].
  apply sqrt_lt_R0.
  destruct (Req_dec_T (cos theta) 0) as [E|E].
  - rewrite E in *. assert (0 < sin theta * sin theta) by lra. nra.
  - assert (Hn : w * cos theta <> 0)
      by (apply Rmult_integral_contrapositive; split; lra).
    pose proof (Rsqr_pos_lt _ Hn) as Hq. unfold Rsqr in Hq.
    assert (0 < (w * cos theta) ^ 2) by lra.
    assert (0 <= (h * sin theta) ^ 2) by nra. lra.
Qed.

Lemma half_extent_y_pos (w h theta : R) :
  0 < w -> 0 < h -> 0 < half_extent_y w h theta.
Proof.
  intros Hw Hh. pose proof (cos2_sin2 theta) as Hcs.
  unfold half_extent_y.
  assert (0 < sqrt ((h * cos theta) ^ 2 + (w * sin theta) ^ 2)); [|lra].
  apply sqrt_lt_R0.
  destruct (Req_dec_T (cos theta) 0) as [E|E].
  - rewrite E in *. assert (0 < sin theta * sin theta) by lra. nra.
  - assert (Hn : h * cos theta <> 0)
      by (apply Rmult_integral_contrapositive; split; lra).
    pose proof (Rsqr_pos_lt _ Hn) as Hq. unfold Rsqr in Hq.
    assert (0 < (h * cos theta) ^ 2) by lra.
    assert (0 <= (w * sin theta) ^ 2) by nra. lra.
Qed.

(** The points of the ellipse where the abscissa, and where the ordinate,
    is the largest. *)
Lemma attained_x (w h c s E : R) :
  0 < w -> 0 < h -> c * c + s * s = 1 -> 0 < E ->
  4 * (E * E) = (w * c) ^ 2 + (h * s) ^ 2 ->
  let d := s * c * (w ^ 2 - h ^ 2) / (4 * E) in
  (2 * (c * E + s * d) / w) ^ 2 + (2 * (s * E - c * d) / h) ^ 2 = 1.
Proof.
  intros Hw Hh Hcs HE H4 d.
  assert (HX : c * E + s * d = w ^ 2 * c / (4 * E)).
  { unfold d. apply (Rmult_eq_reg_r (4 * E)); [|lra].
    field_simplify; [|lra|lra].
    assert (K : c * (4 * (E * E)) = c * ((w * c) ^ 2 + (h * s) ^ 2))
      by (rewrite H4; ring).
    assert (K2 : (c * c + s * s) * (c * w ^ 2) = c * w ^ 2)
      by (rewrite Hcs; ring).
    lra. }
  assert (HY : s * E - c * d = h ^ 2 * s / (4 * E)).
  { unfold d. apply (Rmult_eq_reg_r (4 * E)); [|lra].
    field_simplify; [|lra|lra].
    assert (K : s * (4 * (E * E)) = s * ((w * c) ^ 2 + (h * s) ^ 2))
      by (rewrite H4; ring).
    assert (K2 : (c * c + s * s) * (s * h ^ 2) = s * h ^ 2)
      by (rewrite Hcs; ring).
    lra. }
  rewrite HX, HY.
  replace ((2 * (w ^ 2 * c / (4 * E)) / w) ^ 2 +
           (2 * (h ^ 2 * s / (4 * E)) / h) ^ 2)
    with (((w * c) ^ 2 + (h * s) ^ 2) / (4 * (E * E)))
    by (field; repeat split; lra).
  rewrite <- H4. field. nra.
Qed.

Lemma attained_y (w h c s E : R) :
  0 < w -> 0 < h -> c * c + s * s = 1 -> 0 < E ->
  4 * (E * E) = (h * c) ^ 2 + (w * s) ^ 2 ->
  let d := s * c * (w ^ 2 - h ^ 2) / (4 * E) in
  (2 * (c * d + s * E) / w) ^ 2 + (2 * (s * d - c * E) / h) ^ 2 = 1.
Proof.
  intros Hw Hh Hcs HE H4 d.
  assert (HX : c * d + s * E = w ^ 2 * s / (4 * E)).
  { unfold d. apply (Rmult_eq_reg_r (4 * E)); [|lra].
    field_simplify; [|lra|lra].
    assert (K : s * (4 * (E * E)) = s * ((h * c) ^ 2 + (w * s) ^ 2))
      by (rewrite H4; ring).
    assert (K2 : (c * c + s * s) * (s * w ^ 2) = s * w ^ 2)
      by (rewrite Hcs; ring).
    lra. }
  assert (HY : s * d - c * E = - (h ^ 2 * c) / (4 * E)).
  { unfold d. apply (Rmult_eq_reg_r (4 * E)); [|lra].
    field_simplify; [|lra|lra].
    assert (K : c * (4 * (E * E)) = c * ((h * c) ^ 2 + (w * s) ^ 2))
      by (rewrite H4; ring).
    assert (K2 : (c * c + s * s) * (c * h ^ 2) = c * h ^ 2)
      by (rewrite Hcs; ring).
    lra. }
  rewrite HX, HY.
  replace ((2 * (w ^ 2 * s / (4 * E)) / w) ^ 2 +
           (2 * (- (h ^ 2 * c) / (4 * E)) / h) ^ 2)
    with (((h * c) ^ 2 + (w * s) ^ 2) / (4 * (E * E)))
    by (field; repeat split; lra).
  rewrite <- H4. field. nra.
Qed.





Lemma PI_lt_4 : PI < 4.
Proof.
  pose proof (PI_ineq 1) as [_ H].
  unfold sum_f_R0, tg_alt, PI_tg in H. simpl in H.
  lra.
Qed.


(** ** Rotation *)

Lemma PixCoord_rotate_Fin (px py cx cy b : R) (ub : angle_unit) :
  PixCoord_rotate (mkPixCoord (Fin px) (Fin py)) (mkPixCoord (Fin cx) (Fin cy))
                  (mkQuantity (Fin b) ub)
  = mkPixCoord
      (Fin (cx + (cos (radians ub b) * (px - cx)
                  - sin (radians ub b) * (py - cy))))
      (Fin (cy + (sin (radians ub b) * (px - cx)
                  + cos (radians ub b) * (py - cy)))).
Proof.
  unfold PixCoord_rotate. cbn [x y]. rewrite np_cos_Fin, np_sin_Fin.
  reflexivity.
Qed.

Lemma rotate_Fin (cx cy w h a : R) (u : angle_unit) (m v : gmap string pyval)
    (qx qy b : R) (ub : angle_unit) :
  rotate (mkEllipsePixelRegion (mkPixCoord (Fin cx) (Fin cy)) (Fin w) (Fin h)
                               (mkQuantity (Fin a) u) m v)
         (mkPixCoord (Fin qx) (Fin qy)) (mkQuantity (Fin b) ub)
  = mkEllipsePixelRegion
      (mkPixCoord
         (Fin (qx + (cos (radians ub b) * (cx - qx)
                     - sin (radians ub b) * (cy - qy))))
         (Fin (qy + (sin (radians ub b) * (cx - qx)
                     + cos (radians ub b) * (cy - qy)))))
      (Fin w) (Fin h) (mkQuantity (Fin (a + convert_angle ub u b)) u) m v.
Proof.
  unfold rotate. cbn [center width height angle meta visual].
  rewrite PixCoord_rotate_Fin, qadd_Fin. reflexivity.
Qed.



(** ** Drawing *)

Section ArtistProperties.

Variable mpl_properties_default :
  EllipsePixelRegion -> string -> gmap string pyval.

(** X14.  [as_artist] raises [TypeError] when a keyword argument is one of
    [xy], [width], [height] and [angle], which it passes by name itself.
    When it returns a patch, none of these four names is among the patch
    properties, every keyword argument is one of them with its value, and
    every other property is the default of that name: keyword arguments
    take precedence over the defaults. *)
Theorem as_artist_keywords
    (self : EllipsePixelRegion) (origin : pyfloat * pyfloat)
    (kwargs : gmap string pyval) :
  ((exists k, In k geometry_keywords /\ is_Some (kwargs !! k)) ->
   as_artist mpl_properties_default self origin kwargs
   = Raise (TypeError "got multiple values for keyword argument")) /\
  (forall patch,
     as_artist mpl_properties_default self origin kwargs = Ok patch ->
     forall k,
       ~ (In k geometry_keywords /\ is_Some (patch_props patch !! k)) /\
       patch_props patch !! k
       = match kwargs !! k with
         | Some val => Some val
         | None => mpl_properties_default self "patch" !! k
         end).
Proof.
  unfold as_artist.
  destruct (has_geometry_keyword (kwargs ∪ mpl_properties_default self "patch"))
    eqn:Hg.
  - split; [reflexivity | discriminate].
  - unfold has_geometry_keyword in Hg.
    assert (Hn : forall k, In k geometry_keywords ->
                   ~ is_Some ((kwargs ∪ mpl_properties_default self "patch")
                                !! k)).
    { intros k Hk Hs.
      assert (existsb (fun k => bool_decide
                 (is_Some ((kwargs ∪ mpl_properties_default self "patch") !! k)))
                geometry_keywords = true); [|congruence].
      apply existsb_exists. exists k. split; [exact Hk|].
      apply bool_decide_eq_true. exact Hs. }
    split.
    + intros (k & Hk & [val Hs]). exfalso. apply (Hn k Hk).
      exists val. apply lookup_union_Some_l. exact Hs.
    + intros patch [= <-] k. cbn [patch_props]. split.
      * intros [Hk Hs]. exact (Hn k Hk Hs).
      * rewrite lookup_union. destruct (kwargs !! k) eqn:E.
        -- destruct (mpl_properties_default self "patch" !! k); reflexivity.
        -- destruct (mpl_properties_default self "patch" !! k); reflexivity.
Qed.


End ArtistProperties.

(** ** Masks *)

Lemma fadd_shift (c d : pyfloat) (k : R) :
  (c + Fin k + d)%fl = (c + d + Fin k)%fl.
Proof. destruct c, d; cbn; try reflexivity. f_equal. ring. Qed.

(** Moving the center moves the extent. *)
Lemma bounding_box_extents_shift (self : EllipsePixelRegion) (i j : Z) :
  bounding_box_extents (shift_region i j self)
  = let '(xmin, xmax, ymin, ymax) := bounding_box_extents self in
    ((xmin + float_of_int i)%fl, (xmax + float_of_int i)%fl,
     (ymin + float_of_int j)%fl, (ymax + float_of_int j)%fl).
Proof.
  unfold bounding_box_extents, shift_region, float_of_int.
  cbn [center width height angle x y].
  repeat case_if; rewrite !fadd_shift; reflexivity.
Qed.

Lemma recenter_shift (n k : Z) (c : pyfloat) :
  (float_of_int (n + k) - Fin (1/2) - (c + float_of_int k))%fl
  = (float_of_int n - Fin (1/2) - c)%fl.
Proof.
  unfold float_of_int. destruct c; cbn; try reflexivity.
  f_equal. rewrite plus_IZR. ring.
Qed.

(** Floor and ceiling commute with a move by whole pixels. *)
Lemma spec_from_float_shift (a b c d : pyfloat) (i j : Z) :
  spec_from_float (a + float_of_int i)%fl (b + float_of_int i)%fl
                  (c + float_of_int j)%fl (d + float_of_int j)%fl
  = result_map (shift_box i j) (spec_from_float a b c d).
Proof.
  unfold float_of_int.
  destruct a, b, c, d; try reflexivity.
  cbn [fadd spec_from_float result_map shift_box ixmin ixmax iymin iymax].
  rewrite !Zfloor_addz, !Zceil_addz. reflexivity.
Defined.

Section MaskProperties.

Variable from_float :
  pyfloat -> pyfloat -> pyfloat -> pyfloat -> result BoundingBox.
Variable _validate_mode : string -> Z -> result Datatypes.unit.
Variable elliptical_overlap_grid :
  pyfloat -> pyfloat -> pyfloat -> pyfloat -> Z -> Z ->
  pyfloat -> pyfloat -> pyfloat -> Z -> Z -> list (list pyfloat).


(** X17.  [to_mask] raises exactly when [_validate_mode] raises, or
    [_validate_mode] passes and [bounding_box] raises, and it raises that
    exception.  The mode is checked first: with an invalid mode the bounding
    box is not computed.  The overlap routine is taken to return
    normally. *)
Theorem to_mask_errors
    (self : EllipsePixelRegion) (mode : string) (subpixels : Z)
    (e : exception) :
  to_mask from_float _validate_mode elliptical_overlap_grid
          self mode subpixels = Raise e
  <-> _validate_mode mode subpixels = Raise e \/
      (_validate_mode mode subpixels = Ok tt /\
       bounding_box from_float self = Raise e).
Proof.
  unfold to_mask.
  destruct (_validate_mode mode subpixels) as [t|e'].
  - destruct t. cbn [result_bind].
    destruct (if String.eqb mode "center" then _ else _) as [mode' subpixels'].
    destruct (bounding_box from_float self) as [b|e'].
    + cbn [result_bind]. destruct (shape b).
      split; [discriminate|]. intros [H|[_ H]]; discriminate.
    + cbn [result_bind]. split.
      * intros [= ->]. right. split; reflexivity.
      * intros [H|[_ [= ->]]]; [discriminate|reflexivity].
  - cbn [result_bind]. split.
    + intros [= ->]. left. reflexivity.
    + intros [[= ->]|[H _]]; [reflexivity|discriminate].
Qed.

End MaskProperties.

(** ** Conversions and selectors, continued *)

Section FurtherProperties.

Context {SkyCoord WCS Axes Callback : Type}.

Variable pixel_to_skycoord : pyfloat -> pyfloat -> WCS -> SkyCoord.
Variable skycoord_to_pixel_scale_angle :
  SkyCoord -> WCS -> PixCoord * pyfloat * Quantity.
Variable run_callback : Callback -> EllipsePixelRegion -> EllipsePixelRegion.


(** The result of [as_mpl_selector] on a region with no selector and a zero
    angle. *)
Lemma as_mpl_selector_run
    (h : gmap loc (@pyobject SkyCoord Axes Callback)) (self : loc)
    (o : pixel_object) (ax : Axes) (act sync : bool)
    (callback : option Callback) :
  h !! self = Some (PixelObject o) ->
  hasattr_mpl_selector o = false ->
  (value (angle (region o)) !=? Fin 0)%fl = false ->
  let r := region o in
  let sel :=
    mkEllipseSelector ax
      (if sync then update_from_mpl_selector self else pass_callback) true
      {[ "edgecolor"%string := dict_get (visual r) "color" (PyStr "black");
         "facecolor"%string := PyStr "none";
         "linewidth"%string := dict_get (visual r) "linewidth" (PyInt 1);
         "linestyle"%string :=
           dict_get (visual r) "linestyle" (PyStr "solid") ]}
      ((x (center r) - width r / Fin 2)%fl, (x (center r) + width r / Fin 2)%fl,
       (y (center r) - height r / Fin 2)%fl,
       (y (center r) + height r / Fin 2)%fl)
      act in
  as_mpl_selector run_callback self ax act sync callback h
  = (Ok sel,
     <[self := PixelObject
         (mkPixelObject
            (match sync, callback with
             | true, Some c => run_callback c r
             | _, _ => r
             end)
            (Some sel) (Some callback))]> h).
Proof.
  intros H Ha Hr r sel. unfold as_mpl_selector. unfold bind at 1.
  rewrite (get_pixel_run _ _ _ H), Ha, Hr.
  unfold bind.
  rewrite (update_pixel_run _ _ _ _ H).
  rewrite !update_pixel_insert.
  cbn [_mpl_selector region _mpl_selector_callback option_map].
  destruct sync, callback as [c|]; cbn [ret];
    rewrite ?update_pixel_insert, get_pixel_insert;
    reflexivity.
Qed.

(** [as_mpl_selector] returns a selector only for a pixel region with no
    selector and a zero angle. *)
Lemma as_mpl_selector_ok_inv
    (h h1 : gmap loc (@pyobject SkyCoord Axes Callback)) (self : loc)
    (ax : Axes) (act sync : bool) (callback : option Callback)
    (sel : EllipseSelector) :
  as_mpl_selector run_callback self ax act sync callback h = (Ok sel, h1) ->
  exists o, h !! self = Some (PixelObject o) /\
            hasattr_mpl_selector o = false /\
            (value (angle (region o)) !=? Fin 0)%fl = false.
Proof.
  intros H. unfold as_mpl_selector in H. unfold bind at 1 in H.
  unfold get_pixel in H.
  destruct (h !! self) as [[o|s]|] eqn:Hl; try discriminate.
  exists o. split; [reflexivity|].
  destruct (hasattr_mpl_selector o); [discriminate|].
  destruct (value (angle (region o)) !=? Fin 0)%fl; [discriminate|].
  split; reflexivity.
Qed.

(** The result of [_update_from_mpl_selector] on a region with a selector
    and a callback attribute. *)
Lemma update_from_mpl_selector_result
    (h : gmap loc (@pyobject SkyCoord Axes Callback)) (self : loc)
    (o : pixel_object) (sel : EllipseSelector)
    (xmin xmax ymin ymax : pyfloat) (cb : option Callback) :
  h !! self = Some (PixelObject o) ->
  _mpl_selector o = Some sel ->
  extents sel = (xmin, xmax, ymin, ymax) ->
  _mpl_selector_callback o = Some cb ->
  let r0 :=
    mkEllipsePixelRegion
      (mkPixCoord (Fin (1/2) * (xmin + xmax))%fl (Fin (1/2) * (ymin + ymax))%fl)
      (xmax - xmin)%fl (ymax - ymin)%fl (mkQuantity (Fin 0) deg)
      (meta (region o)) (visual (region o)) in
  _update_from_mpl_selector run_callback self h
  = (Ok tt,
     <[self := PixelObject
         (mkPixelObject
            (match cb with Some c => run_callback c r0 | None => r0 end)
            (Some sel) (Some cb))]> h).
Proof.
  intros H Hsel Hext Hcb r0. unfold _update_from_mpl_selector, bind.
  rewrite (get_pixel_run _ _ _ H), Hsel, Hext.
  rewrite (update_pixel_run _ _ _ _ H), get_pixel_insert.
  cbn [_mpl_selector_callback]. rewrite Hcb, Hsel.
  destruct cb as [c|].
  - rewrite update_pixel_insert. reflexivity.
  - reflexivity.
Qed.

Lemma extents_midpoint (c d : R) :
  (Fin (1/2) * ((Fin c - Fin d / Fin 2) + (Fin c + Fin d / Fin 2)))%fl = Fin c.
Proof. rewrite fdiv_Fin by lra. cbn. f_equal. field. Qed.

Lemma extents_size (c d : R) :
  ((Fin c + Fin d / Fin 2) - (Fin c - Fin d / Fin 2))%fl = Fin d.
Proof. rewrite fdiv_Fin by lra. cbn. f_equal. field. Qed.


(** X20.  After [as_mpl_selector] has returned a selector for a region,
    every further call of [as_mpl_selector] on that region, with any
    arguments, raises the [Exception] for a second selector and leaves the
    heap as it is. *)
Theorem as_mpl_selector_twice
    (h h1 : gmap loc (@pyobject SkyCoord Axes Callback)) (self : loc)
    (ax ax' : Axes) (act sync act' sync' : bool)
    (callback callback' : option Callback) (sel : EllipseSelector) :
  as_mpl_selector run_callback self ax act sync callback h = (Ok sel, h1) ->
  as_mpl_selector run_callback self ax' act' sync' callback' h1
  = (Raise (PyException "Cannot attach more than one selector to a region."),
     h1).
Proof.
  intros H.
  destruct (as_mpl_selector_ok_inv _ _ _ _ _ _ _ _ H) as (o & Hl & Ha & Hr).
  rewrite (as_mpl_selector_run h self o ax act sync callback Hl Ha Hr) in H.
  cbv zeta in H. injection H as Hsel Hh1. subst h1.
  unfold as_mpl_selector. unfold bind at 1.
  rewrite get_pixel_insert. reflexivity.
Qed.

(** X21.  The selector starts on the bounding box of the ellipse: when
    [as_mpl_selector] returns a selector for a region with real center and
    positive width and height, the extents of the selector are the extent
    that [bounding_box] computes for the region,
    [center.x -+ width / 2] by [center.y -+ height / 2], and the selector is
    active as asked. *)
Theorem as_mpl_selector_extents_bounding_box
    (h : gmap loc (@pyobject SkyCoord Axes Callback)) (self : loc)
    (cx cy w h0 : R) (q : Quantity) (m v : gmap string pyval)
    (sl : option EllipseSelector) (cb : option (option Callback))
    (ax : Axes) (act sync : bool) (callback : option Callback)
    (sel : EllipseSelector)
    (h1 : gmap loc (@pyobject SkyCoord Axes Callback)) :
  let r := mkEllipsePixelRegion (mkPixCoord (Fin cx) (Fin cy)) (Fin w) (Fin h0)
                                q m v in
  0 < w -> 0 < h0 ->
  h !! self = Some (PixelObject (mkPixelObject r sl cb)) ->
  as_mpl_selector run_callback self ax act sync callback h = (Ok sel, h1) ->
  extents sel = bounding_box_extents r /\
  extents sel = (Fin (cx - w / 2), Fin (cx + w / 2),
                 Fin (cy - h0 / 2), Fin (cy + h0 / 2)) /\
  active sel = act.
Proof.
  intros r Hw Hh Hl H. subst r.
  destruct (as_mpl_selector_ok_inv _ _ _ _ _ _ _ _ H) as (o & Hl' & Ha & Hr).
  rewrite Hl in Hl'. injection Hl' as <-. cbn [region angle] in Hr.
  rewrite (as_mpl_selector_run h self _ ax act sync callback Hl Ha Hr) in H.
  cbv zeta in H. injection H as Hsel Hh1. subst sel.
  cbn [extents active region center x y width height].
  assert (Hq : value (to rad q) = Fin 0).
  { apply fne_zero_false in Hr. destruct q as [vq [|]]; cbn in *; subst vq.
    - cbn. f_equal. ring.
    - reflexivity. }
  rewrite (extents_even_quarter cx cy w h0 q m v 0 0 Hw Hh Hq
             zero_quarter_turns eq_refl).
  destruct (Req_dec_T 2 0) as [E|_]; [lra|]. cbn [fopp fadd].
  assert (Ee : (Fin (cx + - (w / 2)), Fin (cx + w / 2),
                Fin (cy + - (h0 / 2)), Fin (cy + h0 / 2))
               = (Fin (cx - w / 2), Fin (cx + w / 2),
                  Fin (cy - h0 / 2), Fin (cy + h0 / 2))) by reflexivity.
  auto.
Qed.


(** X23.  With [sync] false the selector and the region are disconnected:
    when [as_mpl_selector] returns, the region has the parameters it had,
    whatever the callback (which is stored and not called), and the call of
    the function handed to the selector changes nothing in the heap. *)
Theorem as_mpl_selector_unsynced
    (h : gmap loc (@pyobject SkyCoord Axes Callback)) (self : loc)
    (o : pixel_object) (ax : Axes) (act : bool)
    (callback : option Callback) (sel : EllipseSelector)
    (h1 : gmap loc (@pyobject SkyCoord Axes Callback)) :
  h !! self = Some (PixelObject o) ->
  as_mpl_selector run_callback self ax act false callback h
  = (Ok sel, h1) ->
  h1 = <[self := PixelObject
                   (mkPixelObject (region o) (Some sel) (Some callback))]> h /\
  call_sync_callback run_callback (onselect sel) h1 = (Ok tt, h1).
Proof.
  intros Hl H.
  destruct (as_mpl_selector_ok_inv _ _ _ _ _ _ _ _ H) as (o' & Hl' & Ha & Hr).
  rewrite Hl in Hl'. injection Hl' as <-.
  rewrite (as_mpl_selector_run h self o ax act false callback Hl Ha Hr)
    in H.
  cbv zeta in H. injection H as Hsel Hh1. subst sel h1.
  split; reflexivity.
Qed.

End FurtherProperties.

(** ** Construction *)


(** ** The further properties on concrete inputs *)

(** The ellipse with zero width does not contain its center. *)
Lemma contains_zero_axis_witness :
  in_ell zero_width_ellipse (mkPixCoord (Fin 15) (Fin 10)) = false /\
  contains zero_width_ellipse (mkPixCoord (Fin 15) (Fin 10))
  = negb (truthy (dict_get (meta zero_width_ellipse) "include" (PyBool true))).
Proof.
  apply (contains_zero_axis zero_width_ellipse). left. reflexivity.
Defined.

(** A point with a NaN abscissa is outside the scenario's ellipse. *)
Lemma contains_nan_witness :
  in_ell scenario_ellipse (mkPixCoord NaN (Fin 10)) = false /\
  contains scenario_ellipse (mkPixCoord NaN (Fin 10))
  = negb (truthy (dict_get (meta scenario_ellipse) "include" (PyBool true))).
Proof.
  apply (contains_nan scenario_ellipse). left. reflexivity.
Defined.


(** The center (15, 10) is in the ellipse of width 16 and height 10, and so in the one of width 20 and height 12. *)
Lemma contains_monotone_witness :
  contains (mkEllipsePixelRegion (mkPixCoord (Fin 15) (Fin 10)) (Fin 20)
              (Fin 12) (mkQuantity (Fin 30) deg) ∅ ∅)
           (mkPixCoord (Fin 15) (Fin 10)) = true.
Proof.
  apply (contains_monotone 15 10 16 10 20 12 30 deg ∅ ∅ 15 10);
    try lra.
  - exact include_empty.
  - apply contains_center_Fin; [lra | lra | exact include_empty].
Defined.






(** With no default property and no keyword argument, [as_artist] returns the patch. *)
Lemma example_as_artist (self : EllipsePixelRegion) :
  as_artist example_mpl_properties_default self (Fin 0, Fin 0) ∅
  = Ok (mkEllipse ((x (center self) - Fin 0)%fl, (y (center self) - Fin 0)%fl)
                  (width self) (height self) (value (to deg (angle self)))
                  (∅ ∪ ∅)).
Proof.
  unfold as_artist, example_mpl_properties_default, has_geometry_keyword,
    geometry_keywords.
  cbn [existsb]. rewrite !lookup_union, !lookup_empty. cbn [union_with].
  rewrite bool_decide_eq_false_2 by (intros [? ?]; discriminate).
  reflexivity.
Defined.





(** On the example heap, [as_mpl_selector] returns a selector for the scenario's ellipse. *)
Lemma example_as_mpl_selector (act sync : bool) :
  exists sel h1,
    as_mpl_selector example_run_callback 1%positive tt act sync None
                    example_heap = (Ok sel, h1).
Proof.
  eexists _, _.
  apply (as_mpl_selector_run example_run_callback example_heap 1%positive
           _ tt act sync None example_heap_pixel eq_refl fne_zero_zero).
Defined.

(** On the example heap, the second selector is refused. *)
Lemma as_mpl_selector_twice_witness :
  exists sel h1,
    as_mpl_selector example_run_callback 1%positive tt true true None
                    example_heap = (Ok sel, h1) /\
    as_mpl_selector example_run_callback 1%positive tt false false None h1
    = (Raise (PyException "Cannot attach more than one selector to a region."),
       h1).
Proof.
  destruct (example_as_mpl_selector true true) as (sel & h1 & H).
  exists sel, h1. split; [exact H|].
  exact (as_mpl_selector_twice example_run_callback _ _ _ _ _ _ _ _ _ _ _ _ H).
Defined.

(** On the example heap, the selector starts on the extent 7 to 23 by 5 to 15. *)
Lemma as_mpl_selector_extents_bounding_box_witness :
  exists sel h1,
    as_mpl_selector example_run_callback 1%positive tt true true None
                    example_heap = (Ok sel, h1) /\
    extents sel = bounding_box_extents scenario_ellipse /\
    extents sel = (Fin (15 - 16 / 2), Fin (15 + 16 / 2),
                   Fin (10 - 10 / 2), Fin (10 + 10 / 2)) /\
    active sel = true.
Proof.
  destruct (example_as_mpl_selector true true) as (sel & h1 & H).
  exists sel, h1. split; [exact H|].
  apply (as_mpl_selector_extents_bounding_box example_run_callback
           example_heap 1%positive 15 10 16 10 (mkQuantity (Fin 0) deg) ∅ ∅
           None None tt true true None sel h1); try lra.
  - exact example_heap_pixel.
  - exact H.
Defined.

(** The region of the heap with a selector. *)
Lemma example_selector_heap_pixel :
  example_selector_heap !! 1%positive
  = Some (PixelObject (mkPixelObject tilted_ellipse (Some example_selector)
                                     (Some None))).
Proof. apply lookup_singleton_eq. Defined.


(** On the example heap, a selector that is not kept in sync, with a callback. *)
Lemma as_mpl_selector_unsynced_witness :
  exists sel h1,
    as_mpl_selector example_run_callback 1%positive tt true false (Some tt)
                    example_heap = (Ok sel, h1) /\
    h1 = <[1%positive := PixelObject
             (mkPixelObject scenario_ellipse (Some sel) (Some (Some tt)))]>
           example_heap /\
    call_sync_callback example_run_callback (onselect sel) h1 = (Ok tt, h1).
Proof.
  assert (H : exists sel h1,
             as_mpl_selector example_run_callback 1%positive tt true false
                             (Some tt) example_heap = (Ok sel, h1)).
  { eexists _, _.
    apply (as_mpl_selector_run example_run_callback example_heap 1%positive
             _ tt true false (Some tt) example_heap_pixel eq_refl
             fne_zero_zero). }
  destruct H as (sel & h1 & H). exists sel, h1. split; [exact H|].
  exact (as_mpl_selector_unsynced example_run_callback example_heap
           1%positive _ tt true (Some tt) sel h1 example_heap_pixel H).
Defined.
